(** * jsonMdBridge: the JSON <-> Markdown converters

    A shallow embedding of [src/converters/jsonToMarkdown.ts] (the
    encoder [jsonToMarkdown] and the decoder [markdownToJson], with their
    helpers) and the properties of the two pipelines.

    Conventions of the embedding.
    - A JavaScript string is a [string]; each [ascii] stands for one
      UTF-16 code unit below 256.  The character classes of the source's
      regular expressions ([\s], [\d], [\w], [.]) and of [trim] are the
      ECMAScript ones restricted to that range.
    - A JavaScript number is a finite decimal [mant * 10 ^ exp10] in
      normal form (the digits [Number.prototype.toString] prints), or one
      of the three non-finite values.  [parseInt] and [parseFloat] are
      exact on it; a double agrees with this up to 15 significant digits.
    - An object is the list of its own entries in insertion order, keys
      unique.  The reordering of integer-like keys, inherited properties
      and the [__proto__] setter are outside the model.
    - The decoder runs in a monad that threads the [errors] array and
      carries a thrown exception; the only exception the decoder can raise
      is the engine's [RangeError] when the recursion of [parseContent]
      exhausts the call stack, so [parseContent] takes the number of stack
      frames it may still use. *)

From Stdlib Require Import String Ascii List ZArith Lia Bool Arith DecimalString.
From Stdlib Require Decimal DecimalFacts DecimalPos DecimalN.
Import ListNotations.

Open Scope list_scope.
Open Scope string_scope.

(** ** JavaScript string primitives *)

Module Js.

Definition code (c : ascii) : nat := nat_of_ascii c.

(** [\d] *)
Definition isDigit (c : ascii) : bool :=
  (48 <=? code c)%nat && (code c <=? 57)%nat.

(** [[A-Z]] *)
Definition isUpper (c : ascii) : bool :=
  (65 <=? code c)%nat && (code c <=? 90)%nat.

(** [[a-z]] *)
Definition isLower (c : ascii) : bool :=
  (97 <=? code c)%nat && (code c <=? 122)%nat.

(** [\w], that is [[A-Za-z0-9_]] *)
Definition isWord (c : ascii) : bool :=
  isUpper c || isLower c || isDigit c || (code c =? 95)%nat.

(** [\s], and the characters [trim] strips: TAB, LF, VT, FF, CR, SP, NBSP. *)
Definition isSpace (c : ascii) : bool :=
  ((9 <=? code c)%nat && (code c <=? 13)%nat)
  || (code c =? 32)%nat || (code c =? 160)%nat.

(** The line terminators, which [.] does not match: LF and CR. *)
Definition isLineTerminator (c : ascii) : bool :=
  (code c =? 10)%nat || (code c =? 13)%nat.

Definition toUpperCase (c : ascii) : ascii :=
  if isLower c then ascii_of_nat (code c - 32) else c.

Definition toLowerCase (c : ascii) : ascii :=
  if isUpper c then ascii_of_nat (code c + 32) else c.

Fixpoint trimStart (s : string) : string :=
  match s with
  | EmptyString => EmptyString
  | String c rest => if isSpace c then trimStart rest else s
  end.

Fixpoint trimEnd (s : string) : string :=
  match s with
  | EmptyString => EmptyString
  | String c rest =>
      match trimEnd rest with
      | EmptyString => if isSpace c then EmptyString else String c EmptyString
      | kept => String c kept
      end
  end.

(** [s.trim()] *)
Definition trim (s : string) : string := trimEnd (trimStart s).

(** [s.startsWith(p)] *)
Fixpoint startsWith (p s : string) : bool :=
  match p, s with
  | EmptyString, _ => true
  | String _ _, EmptyString => false
  | String a p', String b s' => Ascii.eqb a b && startsWith p' s'
  end.

(** [s.endsWith(p)] *)
Definition endsWith (p s : string) : bool :=
  (String.length p <=? String.length s)%nat
  && (substring (String.length s - String.length p) (String.length p) s =? p).

(** [s.includes(sub)] *)
Fixpoint includes (sub s : string) : bool :=
  startsWith sub s ||
  match s with
  | EmptyString => false
  | String _ rest => includes sub rest
  end.

(** [s.slice(n)] for [n >= 0] *)
Fixpoint sliceFrom (n : nat) (s : string) : string :=
  match n, s with
  | O, _ => s
  | S _, EmptyString => EmptyString
  | S k, String _ rest => sliceFrom k rest
  end.

(** [s.slice(1, -1)] *)
Definition sliceInner (s : string) : string :=
  substring 1 (String.length s - 2) s.

(** [s.split(sep)] for a separator of one character *)
Fixpoint split (sep : ascii) (s : string) : list string :=
  match s with
  | EmptyString => [EmptyString]
  | String c rest =>
      if Ascii.eqb c sep then EmptyString :: split sep rest
      else match split sep rest with
           | piece :: pieces => String c piece :: pieces
           | [] => [String c EmptyString]
           end
  end.

(** [parts.join(sep)] *)
Definition join (sep : string) (parts : list string) : string :=
  String.concat sep parts.

(** [' '.repeat(n)] *)
Fixpoint repeatSpace (n : nat) : string :=
  match n with
  | O => EmptyString
  | S k => String " " (repeatSpace k)
  end.

(** [s.replace(/c/g, by)] for a pattern that is one literal character:
    every occurrence is replaced, scanning left to right. *)
Fixpoint replaceAllChar (c : ascii) (by_ : string) (s : string) : string :=
  match s with
  | EmptyString => EmptyString
  | String x rest =>
      if Ascii.eqb x c then by_ ++ replaceAllChar c by_ rest
      else String x (replaceAllChar c by_ rest)
  end.

(** [s.replace(/[class]/g, '')] and [s.replace(/[class]+/g, '')]: every
    character of the class is deleted. *)
Fixpoint removeAll (cls : ascii -> bool) (s : string) : string :=
  match s with
  | EmptyString => EmptyString
  | String x rest =>
      if cls x then removeAll cls rest else String x (removeAll cls rest)
  end.

Fixpoint allChars (cls : ascii -> bool) (s : string) : bool :=
  match s with
  | EmptyString => true
  | String x rest => cls x && allChars cls rest
  end.

(** The longest prefix of [s] in the class, and what follows it. *)
Fixpoint span (cls : ascii -> bool) (s : string) : string * string :=
  match s with
  | EmptyString => (EmptyString, EmptyString)
  | String x rest =>
      if cls x then let (a, b) := span cls rest in (String x a, b)
      else (EmptyString, s)
  end.

(** [String(n)] for a non-negative integer *)
Definition natToString (n : nat) : string :=
  NilZero.string_of_uint (Nat.to_uint n).

End Js.

(** ** Numbers *)

Inductive JsNumber : Type :=
  | Finite (mant : Z) (exp10 : Z)
  | NaN
  | Infinity (negative : bool).

Module Num.

(** Digits of a positive mantissa, most significant first. *)
Definition digitsOf (m : Z) : string :=
  NilZero.string_of_uint (N.to_uint (Z.abs_N m)).

Fixpoint stripZeros (fuel : nat) (m e : Z) : Z * Z :=
  match fuel with
  | O => (m, e)
  | S k =>
      if (m =? 0)%Z then (0%Z, 0%Z)
      else if (m mod 10 =? 0)%Z then stripZeros k (m / 10)%Z (e + 1)%Z
      else (m, e)
  end.

(** The normal form: no trailing zero in the mantissa, zero as [0 * 10^0]. *)
Definition normalize (m e : Z) : JsNumber :=
  let (m', e') := stripZeros (S (String.length (digitsOf m))) m e in
  Finite m' e'.

Fixpoint zeros (n : nat) : string :=
  match n with
  | O => EmptyString
  | S k => String "0" (zeros k)
  end.

(** [Number::toString] of ECMA-262 (radix 10) on a positive number with
    digits [ds] ([k] of them) and decimal point after [n] digits. *)
Definition positiveToString (ds : string) (n : Z) : string :=
  let k := Z.of_nat (String.length ds) in
  if ((k <=? n) && (n <=? 21))%Z then
    ds ++ zeros (Z.to_nat (n - k))
  else if ((0 <? n) && (n <=? 21))%Z then
    substring 0 (Z.to_nat n) ds ++ "." ++ Js.sliceFrom (Z.to_nat n) ds
  else if ((-6 <? n) && (n <=? 0))%Z then
    "0." ++ zeros (Z.to_nat (- n)) ++ ds
  else
    let e := (n - 1)%Z in
    let sign := if (e <? 0)%Z then "-" else "+" in
    let expo := sign ++ digitsOf e in
    match ds with
    | String d EmptyString => String d EmptyString ++ "e" ++ expo
    | String d more => String d EmptyString ++ "." ++ more ++ "e" ++ expo
    | EmptyString => EmptyString
    end.

(** [String(x)] for a number *)
Definition toString (x : JsNumber) : string :=
  match x with
  | NaN => "NaN"
  | Infinity false => "Infinity"
  | Infinity true => "-Infinity"
  | Finite m e =>
      if (m =? 0)%Z then "0"
      else
        let ds := digitsOf m in
        let body := positiveToString ds (Z.of_nat (String.length ds) + e)%Z in
        if (m <? 0)%Z then "-" ++ body else body
  end.

Definition digitValue (c : ascii) : Z := Z.of_nat (Js.code c - 48).

(** The value of a run of decimal digits. *)
Definition digitsValue (ds : string) : Z :=
  fold_left (fun acc c => (10 * acc + digitValue c)%Z)
            (list_ascii_of_string ds) 0%Z.

Definition stripMinus (s : string) : bool * string :=
  match s with
  | String "-" rest => (true, rest)
  | _ => (false, s)
  end.

(** [/^-?\d+$/.test(s)] *)
Definition isInteger (s : string) : bool :=
  let (_, body) := stripMinus s in
  negb (body =? EmptyString) && Js.allChars Js.isDigit body.

(** [/^-?\d*\.\d+$/.test(s)] *)
Definition isDecimal (s : string) : bool :=
  let (_, body) := stripMinus s in
  let (_, rest) := Js.span Js.isDigit body in
  match rest with
  | String "." frac => negb (frac =? EmptyString) && Js.allChars Js.isDigit frac
  | _ => false
  end.

(** [parseInt(s, 10)] on a string that satisfies [isInteger] *)
Definition parseInt (s : string) : JsNumber :=
  let (neg, body) := stripMinus s in
  let v := digitsValue body in
  normalize (if neg then (- v)%Z else v) 0.

(** [parseFloat(s)] on a string that satisfies [isDecimal] *)
Definition parseFloat (s : string) : JsNumber :=
  let (neg, body) := stripMinus s in
  let (int, rest) := Js.span Js.isDigit body in
  let frac := Js.sliceFrom 1 rest in
  let v := digitsValue (int ++ frac) in
  normalize (if neg then (- v)%Z else v) (- Z.of_nat (String.length frac)).

End Num.

(** ** The data model *)

(** The values the encoder accepts and the decoder produces.  [JDate]
    carries what [toISOString] returns for the date. *)
Unset Elimination Schemes.
Inductive Json : Type :=
  | JNull
  | JUndefined
  | JBool (b : bool)
  | JNum (n : JsNumber)
  | JStr (s : string)
  | JDate (iso : string)
  | JArr (items : list Json)
  | JObj (entries : list (string * Json)).
Set Elimination Schemes.

(** The line break the encoder joins with and the decoder splits on. *)
Definition LF : ascii := "010"%char.
Definition nl : string := String LF EmptyString.

Definition default {A : Type} (d : A) (o : option A) : A :=
  match o with
  | Some x => x
  | None => d
  end.

Section Mapi.
Context {A B : Type} (f : nat -> A -> B).

(** [arr.map((item, index) => f index item)], from a starting index. *)
Fixpoint mapiFrom (index : nat) (l : list A) : list B :=
  match l with
  | [] => []
  | x :: rest => f index x :: mapiFrom (S index) rest
  end.
End Mapi.

(** [String(value)] on the values the converters apply it to: [null],
    [undefined], booleans, numbers and strings. *)
Definition stringOf (value : Json) : string :=
  match value with
  | JNull => "null"
  | JUndefined => "undefined"
  | JBool true => "true"
  | JBool false => "false"
  | JNum n => Num.toString n
  | JStr s => s
  | JDate _ | JArr _ | JObj _ => EmptyString
  end.

(** [Object.keys(obj)]: a date has no own enumerable property. *)
Definition objectKeys (obj : Json) : list string :=
  match obj with
  | JObj entries => map fst entries
  | _ => []
  end.

(** [obj[key]] *)
Definition getProp (obj : Json) (key : string) : Json :=
  match obj with
  | JObj entries =>
      match find (fun kv => fst kv =? key) entries with
      | Some kv => snd kv
      | None => JUndefined
      end
  | _ => JUndefined
  end.

(** ** The encoder *)

Record JsonToMarkdownOptions : Type := {
  headingLevel : option Z;
  indentSize : option nat;
  useNumberedLists : option bool;
  arraysAsTables : option bool;
  maxDepth : option Z
}.

Definition noEncodeOptions : JsonToMarkdownOptions :=
  {| headingLevel := None; indentSize := None; useNumberedLists := None;
     arraysAsTables := None; maxDepth := None |}.

Definition truncationMarker : string := "_... (max depth reached)_".

Definition escapeMarkdown (text : string) : string :=
  Js.replaceAllChar "|" "\|" text.

Definition isPrimitive (value : Json) : bool :=
  match value with
  | JNull | JUndefined | JStr _ | JNum _ | JBool _ => true
  | JDate _ | JArr _ | JObj _ => false
  end.

Definition isObjectArray (arr : list Json) : bool :=
  (0 <? length arr)%nat
  && forallb (fun item => match item with
                          | JObj _ | JDate _ => true
                          | _ => false
                          end) arr.

(** [allKeys.add(key)] on the insertion-ordered set of column names. *)
Definition addKey (allKeys : list string) (key : string) : list string :=
  if existsb (String.eqb key) allKeys then allKeys else (allKeys ++ [key])%list.

Definition tableKeys (arr : list Json) : list string :=
  fold_left (fun allKeys obj => fold_left addKey (objectKeys obj) allKeys)
            arr [].

(** The text of one table cell. *)
Definition cellValue (value : Json) : string :=
  match value with
  | JNull | JUndefined => "_null_"
  | JObj _ | JDate _ => "_object_"
  | JArr items => "_array[" ++ Js.natToString (length items) ++ "]_"
  | JBool _ | JNum _ | JStr _ => escapeMarkdown (stringOf value)
  end.

Definition tableLine (cells : list string) : string :=
  "| " ++ Js.join " | " cells ++ " |".

Definition arrayToTable (arr : list Json) (depth indentSize : nat)
    (_maxDepth : Z) : string :=
  if (length arr =? 0)%nat then EmptyString
  else
    let keys := tableKeys arr in
    if (length keys =? 0)%nat then EmptyString
    else
      let indent := Js.repeatSpace (depth * indentSize) in
      let headerRow := tableLine (map (fun k => escapeMarkdown k) keys) in
      let separatorRow := tableLine (map (fun _ => "---") keys) in
      let rows :=
        map (fun obj => tableLine (map (fun key => cellValue (getProp obj key)) keys))
            arr in
      Js.join nl (map (fun row => indent ++ row)
                      (headerRow :: separatorRow :: rows)).

(** One line of a non-empty object: the body of [entries.map]. *)
Definition entryLine (indent key : string) (val : Json) (valStr : string)
  : string :=
  let keyStr := "**" ++ escapeMarkdown key ++ "**:" in
  if isPrimitive val then indent ++ "- " ++ keyStr ++ " " ++ valStr
  else indent ++ "- " ++ keyStr ++ nl ++ valStr.

(** One line of a non-empty array: the body of [value.map]. *)
Definition itemLine (indent : string) (useNumberedLists : bool) (index : nat)
    (itemContent : string) : string :=
  let prefix := if useNumberedLists then Js.natToString (index + 1) ++ "."
                else "-" in
  indent ++ prefix ++ " " ++ itemContent.

Fixpoint convertValue (value : Json) (depth : nat) (headingLevel : Z)
    (indentSize : nat) (useNumberedLists arraysAsTables : bool) (maxDepth : Z)
    {struct value} : string :=
  if (maxDepth <? Z.of_nat depth)%Z then truncationMarker
  else
    let indent := Js.repeatSpace (depth * indentSize) in
    match value with
    | JNull | JUndefined => stringOf value
    | JStr s => escapeMarkdown s
    | JBool _ | JNum _ => stringOf value
    | JArr items =>
        if arraysAsTables && (0 <? length items)%nat && isObjectArray items
        then arrayToTable items depth indentSize maxDepth
        else if (length items =? 0)%nat then indent ++ "- _empty array_"
        else
          Js.join nl
            (mapiFrom
               (fun index item =>
                  itemLine indent useNumberedLists index
                    (convertValue item (depth + 1) headingLevel indentSize
                       useNumberedLists arraysAsTables maxDepth))
               0 items)
    | JDate iso => iso
    | JObj entries =>
        if (length entries =? 0)%nat then indent ++ "_empty object_"
        else
          Js.join nl
            (map (fun entry =>
                    entryLine indent (fst entry) (snd entry)
                      (convertValue (snd entry) (depth + 1) headingLevel
                         indentSize useNumberedLists arraysAsTables maxDepth))
                 entries)
    end.

Definition jsonToMarkdown (data : Json) (options : JsonToMarkdownOptions)
  : string :=
  convertValue data 0
    (default 1%Z (headingLevel options))
    (default 2%nat (indentSize options))
    (default false (useNumberedLists options))
    (default false (arraysAsTables options))
    (default 10%Z (maxDepth options)).

(** The number [m * 10 ^ e], as a value. *)
Definition decimal (m e : Z) : Json := JNum (Num.normalize m e).

(** An integer, as a value. *)
Definition num (z : Z) : Json := decimal z 0.

(** ** Effects of the decoder *)

(** What a computation of the decoder ends with: a value, or a thrown
    exception; in both cases the [errors] array as the computation left it. *)
Inductive Outcome (A : Type) : Type :=
  | Returned (value : A) (errors : list string)
  | Thrown (message : string) (errors : list string).

Arguments Returned {A} value errors.
Arguments Thrown {A} message errors.

Definition Eff (A : Type) : Type := list string -> Outcome A.

Definition ret {A : Type} (a : A) : Eff A := fun errors => Returned a errors.

Definition bind {A B : Type} (m : Eff A) (k : A -> Eff B) : Eff B :=
  fun errors =>
    match m errors with
    | Returned a errors' => k a errors'
    | Thrown message errors' => Thrown message errors'
    end.

(** [errors.push(message)] *)
Definition pushError (message : string) : Eff unit :=
  fun errors => Returned tt (errors ++ [message])%list.

Definition throw {A : Type} (message : string) : Eff A :=
  fun errors => Thrown message errors.

Notation "x <- m ;; k" := (bind m (fun x => k))
  (at level 61, m at next level, right associativity).
Notation "m ;;; k" := (bind m (fun _ => k))
  (at level 61, right associativity).

(** The message of the [RangeError] raised when the call stack is used up. *)
Definition stackOverflow : string := "Maximum call stack size exceeded".

(** ** Shared helpers of the decoder *)

(** The first [replace] of [toCamelCase]: the matches of
    [/(?:^\w|[A-Z]|\b\w)/g] are single characters, so every character is
    decided on its own, from its index and the character before it. *)
Fixpoint camelWords (index : nat) (prevIsWord : bool) (s : string) : string :=
  match s with
  | EmptyString => EmptyString
  | String c rest =>
      let matched :=
        ((index =? 0)%nat && Js.isWord c)
        || Js.isUpper c
        || (Js.isWord c && negb prevIsWord) in
      let c' :=
        if matched
        then (if (index =? 0)%nat then Js.toLowerCase c else Js.toUpperCase c)
        else c in
      String c' (camelWords (S index) (Js.isWord c) rest)
  end.

Definition isSeparatorChar (c : ascii) : bool :=
  Ascii.eqb c "_" || Ascii.eqb c "-".

Definition toCamelCase (str : string) : string :=
  Js.removeAll isSeparatorChar (Js.removeAll Js.isSpace (camelWords 0 false str)).

(** [s.replace(/^_|_$/g, '')]: one leading underscore goes, then one
    trailing underscore of what is left. *)
Definition stripUnderscores (s : string) : string :=
  let s1 := match s with
            | String "_" rest => rest
            | _ => s
            end in
  if Js.endsWith "_" s1 then substring 0 (String.length s1 - 1) s1 else s1.

(** [/^array\[\d+\]$/.test(inner)] *)
Definition isArrayMarker (inner : string) : bool :=
  Js.startsWith "array[" inner
  && (let (ds, rest) := Js.span Js.isDigit (Js.sliceFrom 6 inner) in
      negb (ds =? EmptyString) && (rest =? "]")).

Definition parseCellValue (cell : string) : Json :=
  let trimmed := Js.trim cell in
  if (trimmed =? "_null_") || (trimmed =? "null") || (trimmed =? EmptyString) then JNull
  else if trimmed =? "true" then JBool true
  else if trimmed =? "false" then JBool false
  else if Num.isInteger trimmed then JNum (Num.parseInt trimmed)
  else if Num.isDecimal trimmed then JNum (Num.parseFloat trimmed)
  else
    let plain := JStr (stripUnderscores trimmed) in
    if Js.startsWith "_" trimmed && Js.endsWith "_" trimmed then
      let inner := Js.sliceInner trimmed in
      if inner =? "object" then JObj []
      else if inner =? "empty array" then JArr []
      else if inner =? "empty object" then JObj []
      else if isArrayMarker inner then JArr []
      else plain
    else plain.

(** [obj[key] = value] *)
Fixpoint setProp (entries : list (string * Json)) (key : string) (value : Json)
  : list (string * Json) :=
  match entries with
  | [] => [(key, value)]
  | (k, v) :: rest =>
      if k =? key then (k, value) :: rest
      else (k, v) :: setProp rest key value
  end.

(** [Object.assign(target, source)] *)
Definition objectAssign (target source : list (string * Json))
  : list (string * Json) :=
  fold_left (fun acc kv => setProp acc (fst kv) (snd kv)) source target.

(** [lines[i]]; the source reads it only below [lines.length]. *)
Definition lineAt (lines : list string) (i : nat) : string :=
  nth i lines EmptyString.

(** ** Tables *)

Definition isPipeRow (line : string) : bool :=
  Js.startsWith "|" line && Js.endsWith "|" line.

Definition isDash (c : ascii) : bool := Ascii.eqb c "-".

(** [/^\|\s*-+\s*\|/.test(row)] *)
Definition isSeparatorRow (row : string) : bool :=
  match row with
  | String "|" rest =>
      let (_, r1) := Js.span Js.isSpace rest in
      let (dashes, r2) := Js.span isDash r1 in
      let (_, r3) := Js.span Js.isSpace r2 in
      negb (dashes =? EmptyString) && Js.startsWith "|" r3
  | _ => false
  end.

(** [lines.indexOf(x)], with [None] for -1 *)
Fixpoint indexOf (x : string) (lines : list string) : option nat :=
  match lines with
  | [] => None
  | y :: rest =>
      if y =? x then Some 0%nat
      else match indexOf x rest with
           | Some i => Some (S i)
           | None => None
           end
  end.

Definition isTable (lines : list string) : bool :=
  if (length lines <? 2)%nat then false
  else
    match find isPipeRow lines with
    | None => false
    | Some headerRow =>
        if headerRow =? EmptyString then false
        else
          match indexOf headerRow lines with
          | None => false
          | Some headerIndex =>
              if (length lines - 1 <=? headerIndex)%nat then false
              else
                match nth_error lines (headerIndex + 1) with
                | Some separatorRow =>
                    if separatorRow =? EmptyString then false
                    else isSeparatorRow separatorRow
                | None => false
                end
          end
    end.

(** The first loop of [parseTable]: [startIndex] (with [None] for -1) and
    [endIndex], scanning from line [i]. *)
Fixpoint tableBounds (rest : list string) (i : nat) (startIndex : option nat)
    (endIndex : nat) : option nat * nat :=
  match rest with
  | [] => (startIndex, endIndex)
  | line :: rest' =>
      if isPipeRow line then
        tableBounds rest' (S i)
          (match startIndex with
           | None => Some i
           | Some _ => startIndex
           end) endIndex
      else
        match startIndex with
        | Some _ => (startIndex, i)
        | None => tableBounds rest' (S i) startIndex endIndex
        end
  end.

Section Filteri.
Context {A : Type} (keep : nat -> bool).

(** [arr.filter((_, idx) => keep idx)] *)
Fixpoint filteriFrom (idx : nat) (l : list A) : list A :=
  match l with
  | [] => []
  | x :: rest =>
      if keep idx then x :: filteriFrom (S idx) rest
      else filteriFrom (S idx) rest
  end.
End Filteri.

Definition tableHeaders (headerLine : string) (camelCaseKeys : bool)
  : list string :=
  map (fun h => if camelCaseKeys then toCamelCase h else h)
      (filter (fun h => (0 <? String.length h)%nat)
              (map Js.trim (Js.split "|" headerLine))).

Definition rowCells (row : string) (headers : list string) : list string :=
  filteriFrom (fun idx => (0 <? idx)%nat && (idx <=? length headers)%nat) 0
              (map Js.trim (Js.split "|" row)).

Definition rowObject (headers cells : list string) : Json :=
  JObj (fold_left
          (fun rowObj hc => setProp rowObj (fst hc) (parseCellValue (snd hc)))
          (combine headers cells) []).

Definition mismatchMessage (i startIndex : nat) : string :=
  "Row " ++ Js.natToString (i - startIndex - 1) ++ ": column count mismatch".

(** The second loop of [parseTable], over the row indices still to visit. *)
Fixpoint parseRows (lines headers : list string) (startIndex : nat)
    (indices : list nat) (result : list Json) : Eff (list Json) :=
  match indices with
  | [] => ret result
  | i :: later =>
      let row := lineAt lines i in
      if negb (Js.startsWith "|" row) || negb (Js.endsWith "|" row) then
        parseRows lines headers startIndex later result
      else
        let cells := rowCells row headers in
        if negb (length cells =? length headers)%nat then
          pushError (mismatchMessage i startIndex) ;;;
          parseRows lines headers startIndex later result
        else
          parseRows lines headers startIndex later
            (result ++ [rowObject headers cells])%list
  end.

Definition parseTable (lines : list string) (camelCaseKeys : bool)
  : Eff (list Json) :=
  match tableBounds lines 0 None (length lines) with
  | (None, _) => pushError "Table header not found" ;;; ret []
  | (Some startIndex, endIndex) =>
      let headers := tableHeaders (lineAt lines startIndex) camelCaseKeys in
      parseRows lines headers startIndex
        (seq (startIndex + 2) (endIndex - (startIndex + 2))) []
  end.

(** ** Structured content *)

Definition notLineTerminator (c : ascii) : bool := negb (Js.isLineTerminator c).

(** [\s*(.+)] at the text after the colon.  [\s*] is greedy; when nothing
    is left for [(.+)] it gives characters back one at a time, and [(.+)]
    then starts at the last of them that [.] accepts. *)
Fixpoint lastDotChar (ws : string) : option string :=
  match ws with
  | EmptyString => None
  | String c rest =>
      match lastDotChar rest with
      | Some v => Some v
      | None => if notLineTerminator c then Some (String c EmptyString)
                else None
      end
  end.

Definition matchValue (afterColon : string) : option string :=
  let (ws, rest) := Js.span Js.isSpace afterColon in
  match rest with
  | String _ _ => Some (fst (Js.span notLineTerminator rest))
  | EmptyString => lastDotChar ws
  end.

(** [(.+?)\*\*:\s*(.+)] after the opening stars: the shortest key first. *)
Fixpoint lazyKey (key : string) (s : string) : option (string * string) :=
  match s with
  | EmptyString => None
  | String c rest =>
      if Js.isLineTerminator c then None
      else
        let key' := key ++ String c EmptyString in
        match (if Js.startsWith "**:" rest
               then matchValue (Js.sliceFrom 3 rest) else None) with
        | Some v => Some (key', v)
        | None => lazyKey key' rest
        end
  end.

(** [content.match(/\*\*(.+?)\*\*:\s*(.+)/)]: the two groups of the
    leftmost match. *)
Fixpoint matchKeyValue (content : string) : option (string * string) :=
  match (if Js.startsWith "**" content
         then lazyKey EmptyString (Js.sliceFrom 2 content) else None) with
  | Some groups => Some groups
  | None =>
      match content with
      | EmptyString => None
      | String _ rest => matchKeyValue rest
      end
  end.

(** [/^\d+\.\s/.test(line)] *)
Definition isNumbered (line : string) : bool :=
  let (ds, rest) := Js.span Js.isDigit line in
  negb (ds =? EmptyString)
  && match rest with
     | String "." (String c _) => Js.isSpace c
     | _ => false
     end.

(** [line.replace(/^\d+\.\s+/, '')] *)
Definition stripNumber (line : string) : string :=
  let (ds, rest) := Js.span Js.isDigit line in
  match rest with
  | String "." after =>
      let (ws, text) := Js.span Js.isSpace after in
      if negb (ds =? EmptyString) && negb (ws =? EmptyString) then text else line
  | _ => line
  end.

(** The [while] loops that collect the following list items: the items
    of the lines that pass [test], up to the first line that does not. *)
Fixpoint collectItems (test : string -> bool) (item : string -> Json)
    (rest : list string) : list Json :=
  match rest with
  | [] => []
  | line :: rest' =>
      if test line then item line :: collectItems test item rest' else []
  end.

Definition bulletItem (line : string) : Json :=
  parseCellValue (Js.trim (Js.sliceFrom 2 line)).

Definition numberedItem (line : string) : Json :=
  parseCellValue (Js.trim (stripNumber line)).

Definition isNullValue (value : Json) : bool :=
  match value with
  | JNull => true
  | _ => false
  end.

(** [parseContent]; [stack] is the number of frames the call may use, and
    the call throws when there is none left. *)
Fixpoint parseContent (stack : nat) (lines : list string) (startIndex : nat)
    (parseNumberedLists camelCaseKeys : bool) : Eff (Json * nat) :=
  match stack with
  | O => throw stackOverflow
  | S frames =>
      if (length lines <=? startIndex)%nat then ret (JNull, startIndex)
      else
        let line := lineAt lines startIndex in
        if Js.startsWith "- " line then
          let content := Js.trim (Js.sliceFrom 2 line) in
          match (if Js.includes "**" content && Js.includes ":" content
                 then matchKeyValue content else None) with
          | Some (group1, group2) =>
              let key := if camelCaseKeys then toCamelCase group1 else group1 in
              let value := parseCellValue (Js.trim group2) in
              let nextIndex := (startIndex + 1)%nat in
              resolved <-
                (if (nextIndex <? length lines)%nat
                    && Js.startsWith "  " (lineAt lines nextIndex)
                 then
                   nested <- parseContent frames lines nextIndex
                               parseNumberedLists camelCaseKeys ;;
                   if isNullValue (fst nested) then ret (value, nextIndex)
                   else ret nested
                 else ret (value, nextIndex)) ;;
              let value := fst resolved in
              let nextIndex := snd resolved in
              let obj := [(key, value)] in
              if (nextIndex <? length lines)%nat
                 && Js.startsWith "- " (lineAt lines nextIndex)
              then
                more <- parseContent frames lines nextIndex
                          parseNumberedLists camelCaseKeys ;;
                match fst more with
                | JObj entries =>
                    ret (JObj (objectAssign obj entries), snd more)
                | JDate _ => ret (JObj obj, snd more)
                | _ => ret (JObj obj, nextIndex)
                end
              else ret (JObj obj, nextIndex)
          | None =>
              let value := parseCellValue content in
              let items :=
                value :: collectItems (Js.startsWith "- ") bulletItem
                           (skipn (startIndex + 1) lines) in
              let nextIndex := (startIndex + length items)%nat in
              ret (match items with
                   | [only] => only
                   | _ => JArr items
                   end, nextIndex)
          end
        else if parseNumberedLists && isNumbered line then
          let content := Js.trim (stripNumber line) in
          let value := parseCellValue content in
          let items :=
            value :: collectItems isNumbered numberedItem
                       (skipn (startIndex + 1) lines) in
          ret (JArr items, (startIndex + length items)%nat)
        else ret (JNull, (startIndex + 1)%nat)
  end.

(** ** The decoder *)

Record MarkdownToJsonOptions : Type := {
  parseNumberedLists : option bool;
  parseTables : option bool;
  camelCaseKeys : option bool
}.

Definition noDecodeOptions : MarkdownToJsonOptions :=
  {| parseNumberedLists := None; parseTables := None; camelCaseKeys := None |}.

Record MarkdownToJsonResult : Type := {
  data : Json;
  errors : list string
}.

(** [markdown.split('\n').map(line => line.trim())] *)
Definition trimmedLines (markdown : string) : list string :=
  map Js.trim (Js.split LF markdown).

(** The body of the [try] block. *)
Definition decodeBody (stack : nat) (markdown : string)
    (parseNumberedLists parseTables camelCaseKeys : bool) : Eff Json :=
  let lines := trimmedLines markdown in
  if parseTables && isTable lines then
    rows <- parseTable lines camelCaseKeys ;;
    ret (JArr rows)
  else
    parsed <- parseContent stack lines 0 parseNumberedLists camelCaseKeys ;;
    ret (fst parsed).

Definition fatalPrefix : string := "Fatal error: ".

(** [markdownToJson], run with [stack] frames available to [parseContent]. *)
Definition markdownToJson (stack : nat) (markdown : string)
    (options : MarkdownToJsonOptions) : MarkdownToJsonResult :=
  match decodeBody stack markdown
          (default true (parseNumberedLists options))
          (default true (parseTables options))
          (default false (camelCaseKeys options)) [] with
  | Returned value errors => {| data := value; errors := errors |}
  | Thrown message errors =>
      {| data := JNull; errors := (errors ++ [(fatalPrefix ++ message)%string])%list |}
  end.

(** ** Definitions used to state the properties *)

(** Reading an escaped text back: a backslash that stands before a pipe is
    dropped. *)
Fixpoint unescapeMarkdown (text : string) : string :=
  match text with
  | EmptyString => EmptyString
  | String c rest =>
      match rest with
      | String "|" after =>
          if Ascii.eqb c "\" then String "|" (unescapeMarkdown after)
          else String c (unescapeMarkdown rest)
      | _ => String c (unescapeMarkdown rest)
      end
  end.

(** The escaping rule in the words of the specification: a pipe becomes a
    backslash and a pipe, any other character stays as it is. *)
Definition escapeChar (c : ascii) : string :=
  if Ascii.eqb c "|" then "\|" else String c EmptyString.

Definition escapeSpec (text : string) : string :=
  String.concat EmptyString (map escapeChar (list_ascii_of_string text)).

(** How deep a value is nested: the number of non-empty containers on the
    longest path from the value to one of its leaves. *)
Fixpoint nestDepth (value : Json) : nat :=
  match value with
  | JArr [] => 0
  | JArr items => S (list_max (map nestDepth items))
  | JObj [] => 0
  | JObj entries => S (list_max (map (fun entry => nestDepth (snd entry)) entries))
  | _ => 0
  end.

(** A text without a line break: one line of the input. *)
Definition singleLine (s : string) : Prop :=
  Js.allChars (fun c => negb (Ascii.eqb c LF)) s = true.

(** Two lines that differ in leading and trailing whitespace only. *)
Definition sameContent (a b : string) : Prop := Js.trim a = Js.trim b.

(** A diagnostic of the fatal tier. *)
Definition isFatal (diagnostic : string) : bool :=
  Js.startsWith fatalPrefix diagnostic.

(** The option records of the properties; what is not named is left out,
    as in a call that sets one option. *)
Definition tablesOn : JsonToMarkdownOptions :=
  {| headingLevel := None; indentSize := None; useNumberedLists := None;
     arraysAsTables := Some true; maxDepth := None |}.

Definition upTo (depth : Z) : JsonToMarkdownOptions :=
  {| headingLevel := None; indentSize := None; useNumberedLists := None;
     arraysAsTables := None; maxDepth := Some depth |}.

Definition tablesOnUpTo (depth : Z) : JsonToMarkdownOptions :=
  {| headingLevel := None; indentSize := None; useNumberedLists := None;
     arraysAsTables := Some true; maxDepth := Some depth |}.

Definition parseTablesOn : MarkdownToJsonOptions :=
  {| parseNumberedLists := None; parseTables := Some true;
     camelCaseKeys := None |}.

Definition camelCaseOn : MarkdownToJsonOptions :=
  {| parseNumberedLists := None; parseTables := None;
     camelCaseKeys := Some true |}.

(** A computation that leaves [errors] as it found it, and whose only
    exception is the stack overflow. *)
Definition quiet {A : Type} (m : Eff A) : Prop :=
  forall errs,
    (exists a, m errs = Returned a errs) \/ m errs = Thrown stackOverflow errs.

(** The values a scalar text is read as: [null], a boolean, a number, a
    string, an empty array or an empty object. *)
Definition isCell (v : Json) : bool :=
  match v with
  | JNull | JBool _ | JNum _ | JStr _ | JArr [] | JObj [] => true
  | _ => false
  end.

Fixpoint uniqueKeys (keys : list string) : bool :=
  match keys with
  | [] => true
  | key :: rest => negb (existsb (String.eqb key) rest) && uniqueKeys rest
  end.

(** A mapping of distinct keys to cells. *)
Definition isFlatObject (v : Json) : bool :=
  match v with
  | JObj entries =>
      uniqueKeys (map fst entries)
      && forallb (fun entry => isCell (snd entry)) entries
  | _ => false
  end.

(** A list of cells. *)
Definition isCellList (v : Json) : bool :=
  match v with
  | JArr items => forallb isCell items
  | _ => false
  end.

(** A list of flat mappings. *)
Definition isRowList (v : Json) : bool :=
  match v with
  | JArr rows => forallb isFlatObject rows
  | _ => false
  end.

(** The shapes of a decoded value. *)
Definition isDecoded (v : Json) : bool :=
  isCell v || isCellList v || isFlatObject v || isRowList v.

(** The shapes of a value read from structured content. *)
Definition contentShape (v : Json) : bool :=
  isCell v || isCellList v || isFlatObject v.

(** The text the encoder writes for a scalar. *)
Definition scalarText (v : Json) : string :=
  match v with
  | JStr s => escapeMarkdown s
  | _ => stringOf v
  end.

(** A key the bold-key pattern reads back as it is: not empty, and
    without star, pipe or line terminator. *)
Definition isPlainKey (key : string) : bool :=
  negb (key =? EmptyString)
  && Js.allChars (fun c => negb (Ascii.eqb c "*") && negb (Ascii.eqb c "|")
                           && notLineTerminator c) key.

(** A text that fills the rest of a line: not empty, without whitespace
    at either end and without line terminator. *)
Definition isCleanText (t : string) : bool :=
  negb (t =? EmptyString) && (Js.trim t =? t)
  && Js.allChars notLineTerminator t.

(** A scalar whose text is read back as the scalar. *)
Definition stableScalar (v : Json) : Prop :=
  isPrimitive v = true
  /\ isCleanText (scalarText v) = true
  /\ parseCellValue (scalarText v) = v.

(** The line the encoder writes for a key and a scalar at depth 0. *)
Definition keyValueLine (entry : string * Json) : string :=
  "- **" ++ fst entry ++ "**: " ++ scalarText (snd entry).

(** [[A-Za-z]] *)
Definition isLetter (c : ascii) : bool := Js.isUpper c || Js.isLower c.

(** A word: letters only, and none of the three words that are read as
    [null] or as a boolean. *)
Definition isWordText (s : string) : bool :=
  negb (s =? EmptyString) && Js.allChars isLetter s
  && negb (s =? "null") && negb (s =? "true") && negb (s =? "false").

(** A text that fills a table cell: not empty, without whitespace at
    either end, without pipe and without line break. *)
Definition isCleanCell (t : string) : bool :=
  negb (t =? EmptyString) && (Js.trim t =? t)
  && Js.allChars (fun c => negb (Ascii.eqb c "|") && negb (Ascii.eqb c LF)) t.

(** A value whose cell text is read back as the value. *)
Definition stableCell (v : Json) : Prop :=
  isCleanCell (cellValue v) = true /\ parseCellValue (cellValue v) = v.

(** The array of the objects that have the given keys, row by row. *)
Definition tableOf (keys : list string) (rows : list (list Json)) : Json :=
  JArr (map (fun vals => JObj (combine keys vals)) rows).

(** ** Sanity checks: the embedding on the inputs of the test suite *)

Example toString_42 : Num.toString (Finite 42 0) = "42".
Proof. reflexivity. Qed.

Example toString_1999 : Num.toString (Finite 1999 (-2)) = "19.99".
Proof. reflexivity. Qed.

Example toString_small : Num.toString (Finite (-5) (-8)) = "-5e-8".
Proof. reflexivity. Qed.

Example parseFloat_1999 : Num.parseFloat "19.990" = Finite 1999 (-2).
Proof. reflexivity. Qed.

Example split_pipes :
  Js.split "|" "| a | b |" = [EmptyString; " a "; " b "; EmptyString].
Proof. reflexivity. Qed.

Example encode_scalars :
  jsonToMarkdown
    (JObj [("count", num 42); ("price", decimal 1999 (-2));
           ("active", JBool true); ("disabled", JBool false)])
    noEncodeOptions
  = "- **count**: 42" ++ nl ++ "- **price**: 19.99" ++ nl
    ++ "- **active**: true" ++ nl ++ "- **disabled**: false".
Proof. reflexivity. Qed.

Example encode_nested :
  jsonToMarkdown
    (JObj [("user", JObj [("name", JStr "John"); ("tags", JArr [JStr "a"])])])
    noEncodeOptions
  = "- **user**:" ++ nl ++ "  - **name**: John" ++ nl
    ++ "  - **tags**:" ++ nl ++ "    - a".
Proof. reflexivity. Qed.

Example decode_scalars :
  markdownToJson 10
    ("- **count**: 42" ++ nl ++ "- **price**: 19.99" ++ nl
     ++ "- **active**: true" ++ nl ++ "- **disabled**: false")
    noDecodeOptions
  = {| data := JObj [("count", num 42); ("price", decimal 1999 (-2));
                     ("active", JBool true); ("disabled", JBool false)];
       errors := [] |}.
Proof. reflexivity. Qed.

Example decode_list :
  markdownToJson 10 ("- apple" ++ nl ++ "- banana" ++ nl ++ "- cherry")
    noDecodeOptions
  = {| data := JArr [JStr "apple"; JStr "banana"; JStr "cherry"];
       errors := [] |}.
Proof. reflexivity. Qed.

Example decode_numbered :
  markdownToJson 10 ("1. first" ++ nl ++ "2. second") noDecodeOptions
  = {| data := JArr [JStr "first"; JStr "second"]; errors := [] |}.
Proof. reflexivity. Qed.

Example decode_empty :
  markdownToJson 10 EmptyString noDecodeOptions = {| data := JNull; errors := [] |}.
Proof. reflexivity. Qed.

Example decode_table :
  markdownToJson 0
    ("| name | age | role |" ++ nl ++ "| --- | --- | --- |" ++ nl
     ++ "| John | 30 | admin |" ++ nl ++ "| Jane | 25 | user |")
    noDecodeOptions
  = {| data := JArr [JObj [("name", JStr "John"); ("age", num 30);
                           ("role", JStr "admin")];
                     JObj [("name", JStr "Jane"); ("age", num 25);
                           ("role", JStr "user")]];
       errors := [] |}.
Proof. reflexivity. Qed.

Example decode_overflow :
  markdownToJson 1 ("- **a**: 1" ++ nl ++ "- **b**: 2") noDecodeOptions
  = {| data := JNull; errors := ["Fatal error: Maximum call stack size exceeded"] |}.
Proof. reflexivity. Qed.

(** ** The escaping rule *)

Section Escaping.

Lemma append_assoc (a b c : string) : (a ++ b) ++ c = a ++ (b ++ c).
Proof.
  induction a as [|x a IH]; cbn [append]; congruence.
Qed.

Lemma escapeMarkdown_cons (c : ascii) (rest : string) :
  escapeMarkdown (String c rest) = escapeChar c ++ escapeMarkdown rest.
Proof.
  unfold escapeMarkdown, escapeChar; cbn [Js.replaceAllChar].
  destruct (Ascii.eqb c "|"); reflexivity.
Qed.

Lemma concat_empty_cons (x : string) (xs : list string) :
  String.concat EmptyString (x :: xs) = x ++ String.concat EmptyString xs.
Proof.
  destruct xs as [|y ys]; cbn [String.concat].
  - induction x as [|a x IHx]; cbn [append]; congruence.
  - reflexivity.
Qed.

Lemma escapeMarkdown_refines (text : string) :
  escapeMarkdown text = escapeSpec text.
Proof.
  induction text as [|c rest IH].
  - reflexivity.
  - rewrite escapeMarkdown_cons, IH. unfold escapeSpec.
    cbn [list_ascii_of_string map]. now rewrite concat_empty_cons.
Qed.

Lemma escapeMarkdown_no_leading_pipe (text : string) :
  Js.startsWith "|" (escapeMarkdown text) = false.
Proof.
  destruct text as [|c rest]; [reflexivity|].
  rewrite escapeMarkdown_cons. unfold escapeChar.
  destruct (Ascii.eqb c "|") eqn:Hc; [reflexivity|].
  cbn [append Js.startsWith].
  rewrite Ascii.eqb_sym, Hc. reflexivity.
Qed.

Lemma unescape_keeps (c : ascii) (text : string) :
  Js.startsWith "|" text = false ->
  unescapeMarkdown (String c text) = String c (unescapeMarkdown text).
Proof.
  intros Hp. destruct text as [|d more]; [reflexivity|].
  cbn [Js.startsWith] in Hp. rewrite andb_true_r in Hp.
  cbn [unescapeMarkdown].
  destruct d as [[] [] [] [] [] [] [] []]; try reflexivity.
  discriminate Hp.
Qed.

Lemma unescape_escape (text : string) :
  unescapeMarkdown (escapeMarkdown text) = text.
Proof.
  induction text as [|c rest IH]; [reflexivity|].
  rewrite escapeMarkdown_cons. unfold escapeChar.
  destruct (Ascii.eqb_spec c "|") as [->|Hc].
  - cbn. now rewrite IH.
  - cbn [append].
    rewrite unescape_keeps by apply escapeMarkdown_no_leading_pipe.
    now rewrite IH.
Qed.

Lemma escapeMarkdown_pipe_free (text : string) :
  Js.allChars (fun c => negb (Ascii.eqb c "|")) text = true ->
  escapeMarkdown text = text.
Proof.
  induction text as [|c rest IH]; [reflexivity|].
  cbn [Js.allChars]. intros H. apply andb_prop in H as [Hc Hrest].
  rewrite escapeMarkdown_cons, IH by assumption.
  unfold escapeChar. apply negb_true_iff in Hc. now rewrite Hc.
Qed.

End Escaping.

(** ** Substrings *)

Section Substrings.

Lemma startsWith_refl (s : string) : Js.startsWith s s = true.
Proof.
  induction s as [|c s IH]; [reflexivity|].
  cbn [Js.startsWith]. now rewrite Ascii.eqb_refl.
Qed.

Lemma startsWith_app (p a b : string) :
  Js.startsWith p a = true -> Js.startsWith p (a ++ b) = true.
Proof.
  revert a. induction p as [|c p IH]; intros a H; [reflexivity|].
  destruct a as [|d a]; [discriminate|].
  cbn [Js.startsWith append] in *.
  apply andb_prop in H as [Hc Hp]. now rewrite Hc, IH.
Qed.

Lemma includes_refl (s : string) : Js.includes s s = true.
Proof.
  destruct s; cbn [Js.includes]; now rewrite startsWith_refl.
Qed.

Lemma includes_app_l (m a b : string) :
  Js.includes m a = true -> Js.includes m (a ++ b) = true.
Proof.
  induction a as [|c a IH]; cbn [Js.includes append]; intros H.
  - rewrite orb_false_r in H.
    destruct m; [|discriminate]. destruct b; reflexivity.
  - apply orb_prop in H as [H|H].
    + change (String c (a ++ b)) with (String c a ++ b).
      now rewrite startsWith_app.
    + rewrite IH by assumption. apply orb_true_r.
Qed.

Lemma includes_app_r (m a b : string) :
  Js.includes m b = true -> Js.includes m (a ++ b) = true.
Proof.
  intros H. induction a as [|c a IH]; [assumption|].
  cbn [Js.includes append]. rewrite IH. apply orb_true_r.
Qed.

Lemma includes_join (m sep x : string) (parts : list string) :
  In x parts -> Js.includes m x = true ->
  Js.includes m (Js.join sep parts) = true.
Proof.
  unfold Js.join. intros Hin Hm.
  induction parts as [|y ys IH]; [contradiction|].
  destruct ys as [|z zs].
  - destruct Hin as [->|[]]. assumption.
  - cbn [String.concat]. destruct Hin as [->|Hin].
    + now apply includes_app_l.
    + apply includes_app_r, includes_app_r. now apply IH.
Qed.

End Substrings.

(** ** Induction on values *)

Lemma Json_induction (P : Json -> Prop)
    (Hleaf : forall v, nestDepth v = 0 -> P v)
    (Harr : forall items, (forall x, In x items -> P x) -> P (JArr items))
    (Hobj : forall entries,
        (forall k x, In (k, x) entries -> P x) -> P (JObj entries)) :
  forall v, P v.
Proof.
  fix self 1.
  intros [ | | b | n | s | iso | items | entries];
    try (apply Hleaf; reflexivity).
  - apply Harr.
    induction items as [|y ys IHys]; intros x Hx.
    + contradiction.
    + destruct Hx as [<-|Hx]; [apply self | now apply IHys].
  - apply Hobj.
    induction entries as [|[k0 y] ys IHys]; intros k x Hx.
    + contradiction.
    + destruct Hx as [E|Hx]; [|now apply (IHys k)].
      injection E as _ <-. apply self.
Qed.

Lemma list_max_attained (A : Type) (f : A -> nat) (l : list A) :
  l <> [] -> exists x, In x l /\ f x = list_max (map f l).
Proof.
  induction l as [|y ys IH]; [congruence|]. intros _.
  destruct ys as [|z zs].
  - exists y. split; [now left|]. cbn. lia.
  - destruct IH as (x & Hx & E); [congruence|].
    change (list_max (map f (y :: z :: zs)))
      with (Nat.max (f y) (list_max (map f (z :: zs)))).
    destruct (Nat.max_spec (f y) (list_max (map f (z :: zs)))) as [[_ ->]|[_ ->]].
    + exists x. split; [now right|assumption].
    + exists y. split; [now left|reflexivity].
Qed.

Lemma In_mapiFrom (A B : Type) (f : nat -> A -> B) (x : A) (l : list A)
    (start : nat) :
  In x l -> exists index, In (f index x) (mapiFrom f start l).
Proof.
  revert start. induction l as [|y ys IH]; intros start Hx; [contradiction|].
  destruct Hx as [->|Hx].
  - exists start. now left.
  - destruct (IH (S start) Hx) as (index & Hin). exists index. now right.
Qed.

(** ** The depth guard *)

Section DepthGuard.

Variables (headingLevel : Z) (indentSize : nat) (useNumberedLists : bool).
Variable maxDepth : Z.

Lemma convertValue_beyond (value : Json) (depth : nat) (arraysAsTables : bool) :
  (maxDepth < Z.of_nat depth)%Z ->
  convertValue value depth headingLevel indentSize useNumberedLists
    arraysAsTables maxDepth = truncationMarker.
Proof.
  intros H. apply Z.ltb_lt in H.
  destruct value; cbn [convertValue]; now rewrite H.
Qed.

Lemma itemLine_includes (m indent content : string) (index : nat) :
  Js.includes m content = true ->
  Js.includes m (itemLine indent useNumberedLists index content) = true.
Proof.
  intros H. unfold itemLine.
  now apply includes_app_r, includes_app_r, includes_app_r.
Qed.

Lemma entryLine_includes (m indent key content : string) (val : Json) :
  Js.includes m content = true ->
  Js.includes m (entryLine indent key val content) = true.
Proof.
  intros H. unfold entryLine.
  destruct (isPrimitive val);
    now apply includes_app_r, includes_app_r, includes_app_r, includes_app_r.
Qed.

Lemma convertValue_truncates (value : Json) :
  forall depth : nat,
    (maxDepth < Z.of_nat depth + Z.of_nat (nestDepth value))%Z ->
    Js.includes truncationMarker
      (convertValue value depth headingLevel indentSize useNumberedLists
         false maxDepth) = true.
Proof.
  induction value as [v Hv | items IH | entries IH] using Json_induction;
    intros depth H.
  - rewrite convertValue_beyond by lia. apply includes_refl.
  - destruct (Z.ltb_spec maxDepth (Z.of_nat depth)) as [Hd|Hd].
    { rewrite convertValue_beyond by lia. apply includes_refl. }
    destruct items as [|y ys]; [cbn [nestDepth] in H; lia|].
    destruct (list_max_attained _ nestDepth (y :: ys)) as (x & Hx & E);
      [congruence|].
    cbn [convertValue]. apply Z.ltb_ge in Hd. rewrite Hd.
    cbn [andb length Nat.eqb].
    destruct (In_mapiFrom _ _
                (fun index item =>
                   itemLine (Js.repeatSpace (depth * indentSize))
                     useNumberedLists index
                     (convertValue item (depth + 1) headingLevel indentSize
                        useNumberedLists false maxDepth))
                x (y :: ys) 0 Hx) as (index & Hin).
    eapply includes_join; [exact Hin|].
    apply itemLine_includes, IH; [assumption|].
    cbn [nestDepth] in H. rewrite <- E in H. lia.
  - destruct (Z.ltb_spec maxDepth (Z.of_nat depth)) as [Hd|Hd].
    { rewrite convertValue_beyond by lia. apply includes_refl. }
    destruct entries as [|y ys]; [cbn [nestDepth] in H; lia|].
    destruct (list_max_attained _ (fun entry => nestDepth (snd entry)) (y :: ys))
      as ([k x] & Hx & E); [congruence|].
    cbn [convertValue]. apply Z.ltb_ge in Hd. rewrite Hd.
    cbn [length Nat.eqb].
    eapply includes_join.
    + apply (in_map
               (fun entry =>
                  entryLine (Js.repeatSpace (depth * indentSize)) (fst entry)
                    (snd entry)
                    (convertValue (snd entry) (depth + 1) headingLevel
                       indentSize useNumberedLists false maxDepth))
               _ _ Hx).
    + apply entryLine_includes. cbn [snd]. apply (IH k); [assumption|].
      cbn [nestDepth snd] in H, E. rewrite <- E in H. lia.
Qed.

End DepthGuard.

(** ** Lines and whitespace *)

Section Lines.

Lemma split_singleLine (line : string) :
  singleLine line -> Js.split LF line = [line].
Proof.
  unfold singleLine. induction line as [|c rest IH]; [reflexivity|].
  cbn [Js.allChars Js.split]. intros H. apply andb_prop in H as [Hc Hrest].
  apply negb_true_iff in Hc. rewrite Hc, (IH Hrest). reflexivity.
Qed.

Lemma split_line_break (line rest : string) :
  singleLine line ->
  Js.split LF (line ++ nl ++ rest) = line :: Js.split LF rest.
Proof.
  unfold singleLine. induction line as [|c line IH].
  - intros _. reflexivity.
  - cbn [Js.allChars Js.split append]. intros H.
    apply andb_prop in H as [Hc Hline]. apply negb_true_iff in Hc.
    rewrite Hc, (IH Hline). reflexivity.
Qed.

Lemma split_join (ls : list string) :
  ls <> [] -> Forall singleLine ls -> Js.split LF (Js.join nl ls) = ls.
Proof.
  unfold Js.join. induction ls as [|l ls IH]; [congruence|].
  intros _ H. inversion H as [|? ? Hl Hls]; subst.
  destruct ls as [|l' ls'].
  - now apply split_singleLine.
  - cbn [String.concat]. rewrite split_line_break by assumption.
    f_equal. apply IH; [congruence|assumption].
Qed.

(** Every input is the join of its lines, and each of them is one line. *)
Lemma split_nonempty (sep : ascii) (s : string) : Js.split sep s <> [].
Proof.
  destruct s as [|c rest]; cbn [Js.split]; [congruence|].
  destruct (Ascii.eqb c sep); [congruence|].
  destruct (Js.split sep rest); congruence.
Qed.

Lemma split_lines_single (markdown : string) :
  Forall singleLine (Js.split LF markdown).
Proof.
  unfold singleLine. induction markdown as [|c rest IH].
  - repeat constructor.
  - cbn [Js.split]. destruct (Ascii.eqb c LF) eqn:Hc.
    + constructor; [reflexivity|exact IH].
    + destruct (Js.split LF rest) as [|piece pieces].
      * repeat constructor. cbn [Js.allChars]. now rewrite Hc.
      * inversion IH as [|? ? Hpiece Hpieces]; subst.
        constructor; [|assumption].
        cbn [Js.allChars]. now rewrite Hc, Hpiece.
Qed.

Lemma join_split (markdown : string) :
  Js.join nl (Js.split LF markdown) = markdown.
Proof.
  unfold Js.join. induction markdown as [|c rest IH]; [reflexivity|].
  cbn [Js.split]. destruct (Ascii.eqb_spec c LF) as [->|Hc].
  - pose proof (split_nonempty LF rest) as Hne.
    destruct (Js.split LF rest) as [|piece pieces]; [congruence|].
    change (String.concat nl (EmptyString :: piece :: pieces))
      with (nl ++ String.concat nl (piece :: pieces)).
    now rewrite IH.
  - pose proof (split_nonempty LF rest) as Hne.
    destruct (Js.split LF rest) as [|piece pieces]; [congruence|].
    rewrite <- IH. destruct pieces; reflexivity.
Qed.

Lemma trimStart_spaces (pre s : string) :
  Js.allChars Js.isSpace pre = true -> Js.trimStart (pre ++ s) = Js.trimStart s.
Proof.
  induction pre as [|c pre IH]; [reflexivity|].
  cbn [Js.allChars append Js.trimStart]. intros H.
  apply andb_prop in H as [Hc Hpre]. now rewrite Hc, IH.
Qed.

Lemma trimStart_all_spaces (post : string) :
  Js.allChars Js.isSpace post = true -> Js.trimStart post = EmptyString.
Proof.
  induction post as [|c post IH]; [reflexivity|].
  cbn [Js.allChars Js.trimStart]. intros H.
  apply andb_prop in H as [Hc Hpost]. now rewrite Hc, IH.
Qed.

Lemma trimEnd_all_spaces (post : string) :
  Js.allChars Js.isSpace post = true -> Js.trimEnd post = EmptyString.
Proof.
  induction post as [|c post IH]; [reflexivity|].
  cbn [Js.allChars Js.trimEnd]. intros H.
  apply andb_prop in H as [Hc Hpost]. now rewrite IH, Hc.
Qed.

Lemma trimEnd_spaces (s post : string) :
  Js.allChars Js.isSpace post = true -> Js.trimEnd (s ++ post) = Js.trimEnd s.
Proof.
  intros H. induction s as [|c s IH].
  - now rewrite trimEnd_all_spaces.
  - cbn [append Js.trimEnd]. now rewrite IH.
Qed.

Lemma trim_spaces_after (s post : string) :
  Js.allChars Js.isSpace post = true -> Js.trim (s ++ post) = Js.trim s.
Proof.
  intros H. unfold Js.trim. induction s as [|c s IH].
  - cbn [append]. now rewrite trimStart_all_spaces.
  - cbn [append Js.trimStart]. destruct (Js.isSpace c); [exact IH|].
    change (String c (s ++ post)) with (String c s ++ post).
    now apply trimEnd_spaces.
Qed.

Lemma padding_sameContent (pre s post : string) :
  Js.allChars Js.isSpace pre = true ->
  Js.allChars Js.isSpace post = true ->
  sameContent (pre ++ s ++ post) s.
Proof.
  intros Hpre Hpost. unfold sameContent, Js.trim.
  rewrite trimStart_spaces by assumption.
  now apply trim_spaces_after.
Qed.

Lemma trimmedLines_join (ls : list string) :
  ls <> [] -> Forall singleLine ls ->
  trimmedLines (Js.join nl ls) = map Js.trim ls.
Proof.
  intros Hne H. unfold trimmedLines. now rewrite split_join.
Qed.

Lemma sameContent_map (ls ls' : list string) :
  Forall2 sameContent ls ls' -> map Js.trim ls = map Js.trim ls'.
Proof.
  induction 1 as [|a b ls ls' Hab _ IH]; [reflexivity|].
  cbn [map]. now rewrite Hab, IH.
Qed.

End Lines.

(** ** Effects of [parseContent] and [parseTable] *)

Section DecoderEffects.

Lemma quiet_ret (A : Type) (a : A) : quiet (ret a).
Proof. intros errs. left. now exists a. Qed.

Lemma quiet_throw (A : Type) : quiet (@throw A stackOverflow).
Proof. intros errs. now right. Qed.

Lemma quiet_bind (A B : Type) (m : Eff A) (k : A -> Eff B) :
  quiet m -> (forall a, quiet (k a)) -> quiet (bind m k).
Proof.
  intros Hm Hk errs. unfold bind.
  destruct (Hm errs) as [[a ->]| ->]; [apply Hk | now right].
Qed.

Ltac quiet_step :=
  match goal with
  | |- quiet (ret _) => apply quiet_ret
  | |- quiet (throw _) => apply quiet_throw
  | |- quiet (bind _ _) => apply quiet_bind; [|intros ?]
  | |- quiet (if ?c then _ else _) => destruct c
  | |- quiet (match ?x with _ => _ end) => destruct x
  | |- quiet (let (_, _) := ?x in _) => destruct x
  end.

Lemma parseContent_quiet (stack : nat) (lines : list string) :
  forall (startIndex : nat) (parseNumberedLists camelCaseKeys : bool),
    quiet (parseContent stack lines startIndex parseNumberedLists camelCaseKeys).
Proof.
  induction stack as [|frames IH]; intros startIndex pn cc.
  - apply quiet_throw.
  - cbn [parseContent]. repeat (quiet_step || apply IH).
Qed.

(** With a frame for every remaining line and one more, [parseContent]
    returns, and it returns an index past the line it started at. *)
Lemma parseContent_returns (stack : nat) (lines : list string) :
  forall (startIndex : nat) (parseNumberedLists camelCaseKeys : bool)
         (errs : list string),
    length lines - startIndex < stack ->
    exists value nextIndex,
      parseContent stack lines startIndex parseNumberedLists camelCaseKeys errs
      = Returned (value, nextIndex) errs
      /\ (startIndex < length lines -> startIndex < nextIndex).
Proof.
  induction stack as [|frames IH]; intros i pn cc errs Hstack; [lia|].
  cbn [parseContent].
  destruct (Nat.leb_spec (length lines) i) as [Hi|Hi].
  { eexists _, _. split; [reflexivity|lia]. }
  destruct (Js.startsWith "- " (lineAt lines i)).
  - destruct (if Js.includes "**" _ && Js.includes ":" _ then _ else None)
      as [[group1 group2]|].
    + unfold bind at 1.
      assert (Hres : exists value nextIndex,
                 (if (i + 1 <? length lines)%nat
                     && Js.startsWith "  " (lineAt lines (i + 1))
                  then
                    nested <- parseContent frames lines (i + 1) pn cc ;;
                    (if isNullValue (fst nested)
                     then ret (parseCellValue (Js.trim group2), (i + 1)%nat)
                     else ret nested)
                  else ret (parseCellValue (Js.trim group2), (i + 1)%nat)) errs
                 = Returned (value, nextIndex) errs /\ i < nextIndex).
      { destruct ((i + 1 <? length lines)%nat
                  && Js.startsWith "  " (lineAt lines (i + 1))) eqn:Hn.
        - apply andb_prop in Hn as [Hlt _]. apply Nat.ltb_lt in Hlt.
          destruct (IH (i + 1) pn cc errs) as (v & j & E & Hj); [lia|].
          unfold bind. rewrite E. cbn [fst].
          destruct (isNullValue v).
          + eexists _, _. split; [reflexivity|lia].
          + eexists _, _. split; [reflexivity|lia].
        - eexists _, _. split; [reflexivity|lia]. }
      destruct Hres as (value & nextIndex & -> & Hnext). cbn [fst snd].
      destruct ((nextIndex <? length lines)%nat
                && Js.startsWith "- " (lineAt lines nextIndex)) eqn:Hmore.
      * apply andb_prop in Hmore as [Hlt _]. apply Nat.ltb_lt in Hlt.
        destruct (IH nextIndex pn cc errs) as (v & j & E & Hj); [lia|].
        unfold bind. rewrite E. cbn [fst snd].
        destruct v; eexists _, _; (split; [reflexivity|lia]).
      * eexists _, _. split; [reflexivity|lia].
    + eexists _, _. split; [reflexivity|]. cbn [length]. lia.
  - destruct (pn && isNumbered (lineAt lines i)).
    + eexists _, _. split; [reflexivity|]. cbn [length]. lia.
    + eexists _, _. split; [reflexivity|lia].
Qed.

(** [parseRows] never throws, and what it appends to [errors] is not of
    the fatal tier. *)
Lemma parseRows_appends (lines headers : list string) (startIndex : nat)
    (indices : list nat) :
  forall (result : list Json) (errs : list string),
    exists rows added,
      parseRows lines headers startIndex indices result errs
      = Returned rows (errs ++ added)%list
      /\ Forall (fun e => isFatal e = false) added.
Proof.
  induction indices as [|i later IH]; intros result errs.
  - exists result, []. cbn [parseRows]. unfold ret.
    now rewrite app_nil_r.
  - cbn [parseRows].
    destruct (negb _ || negb _); [apply IH|].
    destruct (negb (length _ =? length headers)%nat); [|apply IH].
    unfold bind, pushError.
    destruct (IH result (errs ++ [mismatchMessage i startIndex])%list)
      as (rows & added & -> & Hadded).
    exists rows, (mismatchMessage i startIndex :: added).
    split; [now rewrite <- app_assoc|].
    constructor; [reflexivity|assumption].
Qed.

Lemma parseTable_appends (lines : list string) (camelCaseKeys : bool)
    (errs : list string) :
  exists rows added,
    parseTable lines camelCaseKeys errs = Returned rows (errs ++ added)%list
    /\ Forall (fun e => isFatal e = false) added.
Proof.
  unfold parseTable.
  destruct (tableBounds lines 0 None (length lines)) as [[startIndex|] endIndex].
  - apply parseRows_appends.
  - exists [], ["Table header not found"]. split; [reflexivity|].
    constructor; [reflexivity|constructor].
Qed.

End DecoderEffects.

(** ** Indentation *)

Section Indentation.

Lemma trimStart_head (s : string) :
  Js.trimStart s = EmptyString
  \/ exists c rest, Js.trimStart s = String c rest /\ Js.isSpace c = false.
Proof.
  induction s as [|c s IH]; [now left|].
  cbn [Js.trimStart]. destruct (Js.isSpace c) eqn:Hc; [exact IH|].
  right. now exists c, s.
Qed.

Lemma trim_head (s : string) :
  Js.trim s = EmptyString
  \/ exists c rest, Js.trim s = String c rest /\ Js.isSpace c = false.
Proof.
  unfold Js.trim. destruct (trimStart_head s) as [->|(c & rest & -> & Hc)].
  - now left.
  - right. cbn [Js.trimEnd]. rewrite Hc.
    destruct (Js.trimEnd rest) as [|d kept]; eexists _, _; split; eauto.
Qed.

(** No line the decoder looks at is indented. *)
Lemma trim_not_indented (s : string) :
  Js.startsWith "  " (Js.trim s) = false.
Proof.
  destruct (trim_head s) as [->|(c & rest & -> & Hc)]; [reflexivity|].
  cbn [Js.startsWith].
  destruct (Ascii.eqb_spec " " c) as [<-|_]; [discriminate Hc|reflexivity].
Qed.

Lemma trimmedLines_not_indented (markdown : string) (i : nat) :
  Js.startsWith "  " (lineAt (trimmedLines markdown) i) = false.
Proof.
  unfold lineAt, trimmedLines.
  replace (nth i (map Js.trim (Js.split LF markdown)) EmptyString)
    with (Js.trim (nth i (Js.split LF markdown) EmptyString)).
  - apply trim_not_indented.
  - symmetry. exact (map_nth Js.trim (Js.split LF markdown) EmptyString i).
Qed.

Lemma indented_not_item (line : string) :
  Js.startsWith "  " line = true ->
  Js.startsWith "- " line = false /\ isNumbered line = false.
Proof.
  destruct line as [|c rest]; [discriminate|].
  cbn [Js.startsWith]. intros H. apply andb_prop in H as [Hc _].
  apply Ascii.eqb_eq in Hc. subst c. split; reflexivity.
Qed.

(** An indented line is an unrecognised line to [parseContent]. *)
Lemma parseContent_indented (frames : nat) (lines : list string) (i : nat)
    (parseNumberedLists camelCaseKeys : bool) (errs : list string) :
  i < length lines ->
  Js.startsWith "  " (lineAt lines i) = true ->
  parseContent (S frames) lines i parseNumberedLists camelCaseKeys errs
  = Returned (JNull, i + 1) errs.
Proof.
  intros Hi Hind. cbn [parseContent].
  destruct (Nat.leb_spec (length lines) i) as [Hle|_]; [lia|].
  destruct (indented_not_item _ Hind) as [-> ->].
  now rewrite andb_false_r.
Qed.

(** Hence the nested block under a key-value bullet is never used: the
    key keeps its inline value and the block is not consumed. *)
Lemma parseContent_nested_block (frames : nat) (lines : list string) (i : nat)
    (parseNumberedLists camelCaseKeys : bool) (errs : list string)
    (group1 group2 : string) :
  i + 1 < length lines ->
  Js.startsWith "- " (lineAt lines i) = true ->
  Js.includes "**" (Js.trim (Js.sliceFrom 2 (lineAt lines i))) = true ->
  Js.includes ":" (Js.trim (Js.sliceFrom 2 (lineAt lines i))) = true ->
  matchKeyValue (Js.trim (Js.sliceFrom 2 (lineAt lines i)))
  = Some (group1, group2) ->
  Js.startsWith "  " (lineAt lines (i + 1)) = true ->
  parseContent (2 + frames) lines i parseNumberedLists camelCaseKeys errs
  = Returned
      (JObj [(if camelCaseKeys then toCamelCase group1 else group1,
              parseCellValue (Js.trim group2))], i + 1) errs.
Proof.
  intros Hi Hbullet Hstars Hcolon Hmatch Hind.
  change (2 + frames) with (S (S frames)).
  remember (S frames) as inner eqn:Einner.
  cbn [parseContent].
  destruct (Nat.leb_spec (length lines) i) as [Hle|_]; [lia|].
  rewrite Hbullet, Hstars, Hcolon. cbn [andb]. rewrite Hmatch.
  destruct (Nat.ltb_spec (i + 1) (length lines)) as [_|Hge]; [|lia].
  rewrite Hind. cbn [andb]. unfold bind at 1. unfold bind at 1.
  subst inner. rewrite parseContent_indented by assumption.
  cbn [fst snd isNullValue]. unfold ret at 1. cbn [fst snd].
  destruct (Nat.ltb_spec (i + 1) (length lines)) as [_|Hge]; [|lia].
  destruct (indented_not_item _ Hind) as [-> _]. reflexivity.
Qed.

End Indentation.

(** ** Table rows *)

Section TableRows.

Lemma filteriFrom_window (A : Type) (n : nat) (l : list A) :
  forall start,
    1 <= start ->
    length (filteriFrom (fun idx => (0 <? idx)%nat && (idx <=? n)%nat) start l)
    = Nat.min (length l) (n + 1 - start).
Proof.
  induction l as [|x l IH]; intros start Hstart; [reflexivity|].
  cbn [filteriFrom length].
  destruct (Nat.ltb_spec 0 start) as [_|]; [|lia]. cbn [andb].
  destruct (Nat.leb_spec start n).
  - cbn [length]. rewrite IH by lia. lia.
  - rewrite IH by lia. lia.
Qed.

(** The cells kept from a row: at most as many as the header has. *)
Lemma rowCells_length (row : string) (headers : list string) :
  length (rowCells row headers)
  = Nat.min (length (Js.split "|" row) - 1) (length headers).
Proof.
  unfold rowCells.
  destruct (map Js.trim (Js.split "|" row)) as [|x l] eqn:E.
  - apply (f_equal (@length _)) in E. rewrite length_map in E.
    rewrite E. reflexivity.
  - apply (f_equal (@length _)) in E. rewrite length_map in E.
    cbn [filteriFrom Nat.ltb Nat.leb andb].
    rewrite filteriFrom_window by lia. rewrite E. cbn [length]. lia.
Qed.

(** A row with more cells than the header is cut to the header's width:
    its cell count is never found to differ. *)
Lemma wide_row_accepted (row : string) (headers : list string) :
  length headers < length (Js.split "|" row) ->
  (length (rowCells row headers) =? length headers)%nat = true.
Proof.
  intros H. rewrite rowCells_length. apply Nat.eqb_eq. lia.
Qed.

End TableRows.

(** ** The decoder: nesting, tables, keys *)

(** C1. A key-value bullet followed by a line indented by two spaces: the
    specification has the indented block parsed and used as the key's
    value.  The decoder does not: on [- **user**: x] followed by
    [  - **name**: John] the key [user] keeps its inline value [x], and
    the indented line is read as one more bullet of the same mapping. *)
Theorem nested_block_is_not_parsed (frames : nat) :
  markdownToJson (2 + frames)
    ("- **user**: x" ++ nl ++ "  - **name**: John") noDecodeOptions
  = {| data := JObj [("user", JStr "x"); ("name", JStr "John")];
       errors := [] |}.
Proof. reflexivity. Qed.

(** The input of the test suite for nested objects, as the encoder writes
    it (the key line has no inline value): the key line does not match the
    key-value pattern at all, and the three lines decode as a list of
    three strings. *)
Example nested_block_of_the_encoder :
  markdownToJson 10
    (jsonToMarkdown
       (JObj [("user", JObj [("name", JStr "John"); ("age", num 30)])])
       noEncodeOptions)
    noDecodeOptions
  = {| data := JArr [JStr "**user**:"; JStr "**name**: John";
                     JStr "**age**: 30"];
       errors := [] |}.
Proof. reflexivity. Qed.

(** C2. A table whose header has two columns and whose data row has three
    cells: the specification has the row dropped and a diagnostic
    recorded.  The decoder keeps the row, cut to its first two cells, and
    records nothing. *)
Theorem wide_table_row_is_kept (stack : nat) :
  markdownToJson stack
    ("| col1 | col2 |" ++ nl ++ "| --- | --- |" ++ nl
     ++ "| value1 | value2 | value3 |") noDecodeOptions
  = {| data := JArr [JObj [("col1", JStr "value1"); ("col2", JStr "value2")]];
       errors := [] |}.
Proof. reflexivity. Qed.

(** A row is found too short only: here the header has three columns and
    the row one cell. *)
Example narrow_table_row_is_dropped :
  markdownToJson 0
    ("| a | b | c |" ++ nl ++ "| --- | --- | --- |" ++ nl ++ "| 1 |"
     ++ nl ++ "| 1 | 2 | 3 |") noDecodeOptions
  = {| data := JArr [JObj [("a", num 1); ("b", num 2); ("c", num 3)]];
       errors := ["Row 1: column count mismatch"] |}.
Proof. reflexivity. Qed.

(** Where a word boundary precedes the letter, the transform does
    upper-case it. *)
Example camelCase_on_spaces_and_hyphens :
  toCamelCase "first name" = "firstName"
  /\ toCamelCase "first-name" = "firstName"
  /\ toCamelCase "First_Name" = "firstName".
Proof. repeat split. Qed.

(** C4. Decoding [- **first_name**: John] with [camelCaseKeys] on: the
    specification has the key [firstName].  The decoder yields
    [firstname]: the underscore is a word character, so no word boundary
    precedes the [n], and it is not upper-cased before the underscore is
    removed. *)
Theorem camelCaseKeys_first_name (frames : nat) :
  toCamelCase "first_name" = "firstname"
  /\ markdownToJson (1 + frames) "- **first_name**: John" camelCaseOn
     = {| data := JObj [("firstname", JStr "John")]; errors := [] |}.
Proof. split; reflexivity. Qed.

(** ** Round trips *)



(** Inside a mapping the two spellings part ways: [null] is read as
    [null], [undefined] as a string. *)
Example undefined_in_a_mapping :
  markdownToJson 10
    (jsonToMarkdown (JObj [("a", JNull); ("b", JUndefined)]) noEncodeOptions)
    noDecodeOptions
  = {| data := JObj [("a", JNull); ("b", JStr "undefined")]; errors := [] |}.
Proof. reflexivity. Qed.

(** C5. Numbers and booleans survive the round trip exactly: encoding
    [{ count: 42, price: 19.99, active: true, disabled: false }] and
    decoding the text, both with default options, gives the same mapping,
    with numbers as numbers and booleans as booleans. *)
Theorem scalars_round_trip (frames : nat) :
  let original :=
    JObj [("count", num 42); ("price", decimal 1999 (-2));
          ("active", JBool true); ("disabled", JBool false)] in
  markdownToJson (4 + frames) (jsonToMarkdown original noEncodeOptions)
    noDecodeOptions
  = {| data := original; errors := [] |}.
Proof. reflexivity. Qed.

(** C6. The table round trip: with [arraysAsTables] on, the two objects
    are encoded as a header row with [name] and [age], a separator row and
    two data rows in input order; decoding that text with [parseTables] on
    gives back the two mappings, the ages as numbers. *)
Theorem table_round_trip (stack : nat) :
  let original :=
    JArr [JObj [("name", JStr "John"); ("age", num 30)];
          JObj [("name", JStr "Jane"); ("age", num 25)]] in
  let text := jsonToMarkdown original tablesOn in
  Js.split LF text
  = ["| name | age |"; "| --- | --- |"; "| John | 30 |"; "| Jane | 25 |"]
  /\ markdownToJson stack text parseTablesOn
     = {| data := original; errors := [] |}.
Proof. split; reflexivity. Qed.

(** ** Failure *)

(** With a frame for every line of the input and one more, the body of
    the decoder returns. *)
Lemma decodeBody_returns (stack : nat) (markdown : string)
    (parseNumberedLists parseTables camelCaseKeys : bool) :
  length (trimmedLines markdown) < stack ->
  exists value diagnostics,
    decodeBody stack markdown parseNumberedLists parseTables camelCaseKeys []
    = Returned value diagnostics.
Proof.
  intros Hstack. unfold decodeBody.
  destruct (parseTables && isTable (trimmedLines markdown)).
  - destruct (parseTable_appends (trimmedLines markdown) camelCaseKeys [])
      as (rows & added & E & _).
    unfold bind. rewrite E. now eexists _, _.
  - destruct (parseContent_returns stack (trimmedLines markdown) 0
                parseNumberedLists camelCaseKeys []) as (v & j & E & _);
      [lia|].
    unfold bind. rewrite E. now eexists _, _.
Qed.

(** C7. [markdownToJson] never throws.  Either the body of its [try]
    block threw, and then the result is [null] with exactly one
    diagnostic, the fatal one; or the body returned, and then the result
    is the body's value with the body's diagnostics, none of them of the
    fatal tier. *)
Theorem markdownToJson_never_throws
    (stack : nat) (markdown : string) (options : MarkdownToJsonOptions) :
  let body :=
    decodeBody stack markdown
      (default true (parseNumberedLists options))
      (default true (parseTables options))
      (default false (camelCaseKeys options)) [] in
  (exists message,
      body = Thrown message []
      /\ markdownToJson stack markdown options
         = {| data := JNull; errors := [fatalPrefix ++ message] |})
  \/ (exists value diagnostics,
         body = Returned value diagnostics
         /\ markdownToJson stack markdown options
            = {| data := value; errors := diagnostics |}
         /\ Forall (fun e => isFatal e = false) diagnostics).
Proof.
  cbv zeta. unfold markdownToJson, decodeBody.
  destruct (default true (parseTables options)
            && isTable (trimmedLines markdown)).
  - right.
    destruct (parseTable_appends (trimmedLines markdown)
                (default false (camelCaseKeys options)) [])
      as (rows & added & E & Hadded).
    unfold bind. rewrite E. cbn [app]. unfold ret.
    now exists (JArr rows), added.
  - destruct (parseContent_quiet stack (trimmedLines markdown) 0
                (default true (parseNumberedLists options))
                (default false (camelCaseKeys options)) [])
      as [[[v j] E]|E]; unfold bind; rewrite E.
    + right. exists v, []. cbn [fst]. unfold ret. repeat split. constructor.
    + left. now exists stackOverflow.
Qed.

(** ** Escaping *)



(** ** Depth *)




(** ** Whitespace *)

(** C10. The result of [markdownToJson] depends on each line of the input
    only through its trimmed content: two inputs whose lines agree up to
    leading and trailing whitespace decode to the same value with the same
    diagnostics. *)
Theorem markdownToJson_ignores_padding
    (stack : nat) (options : MarkdownToJsonOptions) (ls ls' : list string) :
  Forall singleLine ls ->
  Forall singleLine ls' ->
  Forall2 sameContent ls ls' ->
  markdownToJson stack (Js.join nl ls) options
  = markdownToJson stack (Js.join nl ls') options.
Proof.
  intros Hls Hls' Hsame.
  destruct Hsame as [|a b ls ls' Hab Hrest]; [reflexivity|].
  assert (E : trimmedLines (Js.join nl (a :: ls))
              = trimmedLines (Js.join nl (b :: ls'))).
  { rewrite !trimmedLines_join by (assumption || congruence).
    apply sameContent_map. now constructor. }
  unfold markdownToJson, decodeBody. now rewrite E.
Qed.

Lemma markdownToJson_ignores_padding_witness :
  markdownToJson 3 ("- **a**: 1" ++ nl ++ "    - **b**: 2  ") noDecodeOptions
  = markdownToJson 3 ("  - **a**: 1 " ++ nl ++ "- **b**: 2") noDecodeOptions.
Proof.
  apply (markdownToJson_ignores_padding 3 noDecodeOptions
           ["- **a**: 1"; "    - **b**: 2  "] ["  - **a**: 1 "; "- **b**: 2"]).
  - repeat constructor.
  - repeat constructor.
  - repeat constructor.
Defined.

(** * Further properties of the converters *)

(** ** Options of the encoder *)

Section EncoderOptions.

Lemma mapiFrom_ext (A B : Type) (f g : nat -> A -> B) (l : list A) :
  (forall x, In x l -> forall index, f index x = g index x) ->
  forall start, mapiFrom f start l = mapiFrom g start l.
Proof.
  induction l as [|y ys IH]; intros H start; [reflexivity|].
  cbn [mapiFrom]. rewrite (H y (or_introl eq_refl)).
  f_equal. apply IH. intros x Hx. apply H. now right.
Qed.

Lemma list_max_bound (A : Type) (f : A -> nat) (x : A) (l : list A) :
  In x l -> f x <= list_max (map f l).
Proof.
  induction l as [|y ys IH]; [contradiction|].
  intros [->|Hx]; cbn [map list_max fold_right].
  - apply Nat.le_max_l.
  - etransitivity; [apply IH, Hx|apply Nat.le_max_r].
Qed.

Lemma nestDepth_item (x : Json) (items : list Json) :
  In x items -> S (nestDepth x) <= nestDepth (JArr items).
Proof.
  intros Hx. pose proof (list_max_bound _ nestDepth x items Hx) as H.
  destruct items; [contradiction|]. cbn [nestDepth]. lia.
Qed.

Lemma nestDepth_entry (k : string) (x : Json) (entries : list (string * Json)) :
  In (k, x) entries -> S (nestDepth x) <= nestDepth (JObj entries).
Proof.
  intros Hx.
  pose proof (list_max_bound _ (fun entry => nestDepth (snd entry)) (k, x)
                entries Hx) as H.
  destruct entries; [contradiction|]. cbn [nestDepth snd] in *. lia.
Qed.

Lemma nestDepth_zero_leaf (v : Json) :
  nestDepth v = 0 ->
  match v with
  | JArr items => items = []
  | JObj entries => entries = []
  | _ => True
  end.
Proof.
  destruct v as [ | | | | | | [|x xs] | [|x xs]]; cbn [nestDepth];
    intros H; trivial; discriminate.
Qed.

End EncoderOptions.

(** X1. The option [headingLevel] is inert: the text of a value does not
    depend on it. *)
Theorem headingLevel_is_inert
    (value : Json) (indentSize : nat) (useNumberedLists arraysAsTables : bool)
    (maxDepth : Z) (headingLevel headingLevel' : Z) :
  forall depth,
    convertValue value depth headingLevel indentSize useNumberedLists
      arraysAsTables maxDepth
    = convertValue value depth headingLevel' indentSize useNumberedLists
        arraysAsTables maxDepth.
Proof.
  induction value as [v Hv | items IH | entries IH] using Json_induction;
    intros depth.
  - apply nestDepth_zero_leaf in Hv.
    destruct v; try subst; reflexivity.
  - cbn [convertValue].
    destruct (maxDepth <? Z.of_nat depth)%Z; [reflexivity|].
    destruct (arraysAsTables && (0 <? length items)%nat && isObjectArray items);
      [reflexivity|].
    destruct (length items =? 0)%nat; [reflexivity|].
    f_equal. apply mapiFrom_ext. intros x Hx index. f_equal. now apply IH.
  - cbn [convertValue].
    destruct (maxDepth <? Z.of_nat depth)%Z; [reflexivity|].
    destruct (length entries =? 0)%nat; [reflexivity|].
    f_equal. apply map_ext_in. intros [k x] Hx. cbn [fst snd].
    f_equal. now apply (IH k).
Qed.

(** X2. A value nested no deeper than [maxDepth] is rendered in full: its
    text is the same under every limit that its nesting fits in. *)
Theorem maxDepth_is_inert_within_depth
    (value : Json) (headingLevel : Z) (indentSize : nat)
    (useNumberedLists arraysAsTables : bool) (maxDepth maxDepth' : Z) :
  forall depth,
    (Z.of_nat depth + Z.of_nat (nestDepth value) <= maxDepth)%Z ->
    (Z.of_nat depth + Z.of_nat (nestDepth value) <= maxDepth')%Z ->
    convertValue value depth headingLevel indentSize useNumberedLists
      arraysAsTables maxDepth
    = convertValue value depth headingLevel indentSize useNumberedLists
        arraysAsTables maxDepth'.
Proof.
  induction value as [v Hv | items IH | entries IH] using Json_induction;
    intros depth H H'.
  - apply nestDepth_zero_leaf in Hv.
    destruct v; try subst; cbn [convertValue];
      destruct (Z.ltb_spec maxDepth (Z.of_nat depth));
      destruct (Z.ltb_spec maxDepth' (Z.of_nat depth));
      cbn [nestDepth] in *; try lia; reflexivity.
  - cbn [convertValue].
    destruct (Z.ltb_spec maxDepth (Z.of_nat depth)); [lia|].
    destruct (Z.ltb_spec maxDepth' (Z.of_nat depth)); [lia|].
    destruct (arraysAsTables && (0 <? length items)%nat && isObjectArray items);
      [reflexivity|].
    destruct (length items =? 0)%nat; [reflexivity|].
    f_equal. apply mapiFrom_ext. intros x Hx index. f_equal.
    pose proof (nestDepth_item x items Hx). apply IH; [assumption|lia|lia].
  - cbn [convertValue].
    destruct (Z.ltb_spec maxDepth (Z.of_nat depth)); [lia|].
    destruct (Z.ltb_spec maxDepth' (Z.of_nat depth)); [lia|].
    destruct (length entries =? 0)%nat; [reflexivity|].
    f_equal. apply map_ext_in. intros [k x] Hx. cbn [fst snd].
    f_equal. pose proof (nestDepth_entry k x entries Hx).
    apply (IH k); [assumption|lia|lia].
Qed.

Lemma maxDepth_is_inert_within_depth_witness :
  jsonToMarkdown (JObj [("a", JArr [num 1; num 2])]) (upTo 2)
  = jsonToMarkdown (JObj [("a", JArr [num 1; num 2])]) noEncodeOptions.
Proof.
  apply (maxDepth_is_inert_within_depth
           (JObj [("a", JArr [num 1; num 2])]) 1 2 false false 2 10 0);
    cbn; lia.
Defined.

(** ** Columns of a table *)

Section TableKeys.

Lemma existsb_eqb_In (key : string) (keys : list string) :
  existsb (String.eqb key) keys = true <-> In key keys.
Proof.
  rewrite existsb_exists. split.
  - intros (x & Hx & E). apply String.eqb_eq in E. now subst.
  - intros H. exists key. split; [assumption|apply String.eqb_refl].
Qed.

Lemma addKey_In (keys : list string) (key k : string) :
  In k (addKey keys key) <-> In k keys \/ k = key.
Proof.
  unfold addKey. destruct (existsb (String.eqb key) keys) eqn:E.
  - apply existsb_eqb_In in E. split; [now left|].
    intros [H| ->]; assumption.
  - rewrite in_app_iff. cbn [In]. intuition congruence.
Qed.

Lemma addKey_NoDup (keys : list string) (key : string) :
  NoDup keys -> NoDup (addKey keys key).
Proof.
  intros H. unfold addKey.
  destruct (existsb (String.eqb key) keys) eqn:E; [assumption|].
  assert (Hn : ~ In key keys).
  { intros Hin. apply existsb_eqb_In in Hin. congruence. }
  clear E. induction H as [|x l Hx Hl IH]; cbn [app].
  - constructor; [intros []|constructor].
  - constructor.
    + rewrite in_app_iff. cbn [In] in *. intuition congruence.
    + apply IH. cbn [In] in Hn. tauto.
Qed.

Lemma addKeys_spec (source keys : list string) :
  (NoDup keys -> NoDup (fold_left addKey source keys))
  /\ (forall k, In k (fold_left addKey source keys)
                <-> In k keys \/ In k source).
Proof.
  revert keys. induction source as [|s source IH]; intros keys; cbn [fold_left].
  - split; [trivial|]. intros k. cbn [In]. tauto.
  - destruct (IH (addKey keys s)) as [IHn IHi]. split.
    + intros H. now apply IHn, addKey_NoDup.
    + intros k. rewrite IHi, addKey_In. cbn [In]. intuition congruence.
Qed.

Lemma tableKeys_from (arr : list Json) (keys : list string) :
  let result :=
    fold_left (fun allKeys obj => fold_left addKey (objectKeys obj) allKeys)
              arr keys in
  (NoDup keys -> NoDup result)
  /\ (forall k, In k result
                <-> In k keys \/ exists obj, In obj arr /\ In k (objectKeys obj)).
Proof.
  cbv zeta. revert keys.
  induction arr as [|obj arr IH]; intros keys; cbn [fold_left].
  - split; [trivial|]. intros k. split; [now left|].
    intros [H|(obj & [] & _)]. assumption.
  - destruct (IH (fold_left addKey (objectKeys obj) keys)) as [IHn IHi].
    destruct (addKeys_spec (objectKeys obj) keys) as [Hn Hi]. split.
    + intros H. now apply IHn, Hn.
    + intros k. rewrite IHi, Hi. split.
      * intros [[H|H]|(o & Ho & Hk)].
        -- now left.
        -- right. exists obj. split; [now left|assumption].
        -- right. exists o. split; [now right|assumption].
      * intros [H|(o & [<-|Ho] & Hk)].
        -- left. now left.
        -- left. now right.
        -- right. now exists o.
Qed.

End TableKeys.

(** X3. The columns of a table are the keys of its rows, each once: no
    column is repeated, every key of every row is a column, and every
    column is a key of some row. *)
Theorem tableKeys_union (arr : list Json) :
  NoDup (tableKeys arr)
  /\ (forall k, In k (tableKeys arr)
                <-> exists obj, In obj arr /\ In k (objectKeys obj)).
Proof.
  destruct (tableKeys_from arr []) as [Hn Hi]. split.
  - apply Hn. constructor.
  - intros k. unfold tableKeys. rewrite Hi. cbn [In]. tauto.
Qed.

(** ** Properties of objects *)

Section Properties.

Lemma setProp_keys_In (entries : list (string * Json)) (key : string)
    (value : Json) (k : string) :
  In k (map fst (setProp entries key value))
  <-> In k (map fst entries) \/ k = key.
Proof.
  induction entries as [|[k0 v0] rest IH]; cbn [setProp map fst In].
  - intuition congruence.
  - destruct (String.eqb_spec k0 key) as [->|Hne]; cbn [map fst In].
    + intuition congruence.
    + rewrite IH. tauto.
Qed.

Lemma setProp_keys_NoDup (entries : list (string * Json)) (key : string)
    (value : Json) :
  NoDup (map fst entries) -> NoDup (map fst (setProp entries key value)).
Proof.
  induction entries as [|[k0 v0] rest IH]; cbn [setProp map fst]; intros H.
  - constructor; [intros []|constructor].
  - inversion H as [|? ? Hk0 Hrest]; subst.
    destruct (String.eqb_spec k0 key) as [->|Hne]; cbn [map fst].
    + now constructor.
    + constructor; [|now apply IH].
      rewrite setProp_keys_In. intuition congruence.
Qed.

Lemma getProp_absent (entries : list (string * Json)) (k : string) :
  ~ In k (map fst entries) -> getProp (JObj entries) k = JUndefined.
Proof.
  cbn [getProp]. induction entries as [|[k0 v0] rest IH]; [reflexivity|].
  cbn [map fst In find]. intros H.
  destruct (String.eqb_spec k0 k) as [->|Hne]; [tauto|].
  apply IH. tauto.
Qed.

End Properties.

(** Writing a property and reading it back: after [obj[key] = value],
    reading [key] gives [value] and reading any other key gives what it
    gave before. *)
Lemma getProp_setProp (entries : list (string * Json)) (key : string)
    (value : Json) (k : string) :
  getProp (JObj (setProp entries key value)) k
  = if k =? key then value else getProp (JObj entries) k.
Proof.
  cbn [getProp]. induction entries as [|[k0 v0] rest IH].
  - cbn [setProp find fst snd]. rewrite String.eqb_sym.
    now destruct (k =? key).
  - cbn [setProp]. destruct (String.eqb_spec k0 key) as [->|Hne].
    + cbn [find fst snd]. rewrite (String.eqb_sym key k).
      now destruct (k =? key).
    + cbn [find fst snd]. destruct (String.eqb_spec k0 k) as [->|Hk].
      * destruct (String.eqb_spec k key); [congruence|reflexivity].
      * exact IH.
Qed.

(** An assignment keeps the order of the keys: an existing key stays
    where it is, a new key goes to the end, and the keys stay distinct. *)
Lemma setProp_keys (entries : list (string * Json)) (key : string)
    (value : Json) :
  map fst (setProp entries key value)
  = (if existsb (String.eqb key) (map fst entries)
     then map fst entries
     else (map fst entries ++ [key])%list)
  /\ (NoDup (map fst entries) ->
      NoDup (map fst (setProp entries key value))).
Proof.
  split; [|apply setProp_keys_NoDup].
  induction entries as [|[k0 v0] rest IH]; [reflexivity|].
  cbn [setProp map fst existsb]. rewrite (String.eqb_sym key k0).
  destruct (String.eqb_spec k0 key) as [->|Hne]; cbn [orb map fst].
  - reflexivity.
  - rewrite IH. now destruct (existsb (String.eqb key) (map fst rest)).
Qed.

(** [Object.assign]: in the merged object a key of the source has the
    source's value, any other key has the target's value. *)
Lemma objectAssign_lookup (source target : list (string * Json))
    (k : string) :
  NoDup (map fst source) ->
  getProp (JObj (objectAssign target source)) k
  = if existsb (String.eqb k) (map fst source)
    then getProp (JObj source) k
    else getProp (JObj target) k.
Proof.
  unfold objectAssign. revert target.
  induction source as [|[k0 v0] rest IH]; intros target H; [reflexivity|].
  inversion H as [|? ? Hk0 Hrest]; subst.
  cbn [fold_left fst snd map existsb]. rewrite (IH _ Hrest).
  rewrite getProp_setProp.
  destruct (String.eqb_spec k k0) as [->|Hne]; cbn [orb].
  - destruct (existsb (String.eqb k0) (map fst rest)) eqn:E.
    + apply existsb_eqb_In in E. contradiction.
    + cbn [getProp find fst snd]. now rewrite String.eqb_refl.
  - destruct (existsb (String.eqb k) (map fst rest)); [|reflexivity].
    cbn [getProp find fst snd].
    destruct (String.eqb_spec k0 k); [congruence|reflexivity].
Qed.

(** ** Keys in camel case *)

Section CamelCase.

Lemma removeAll_clean (cls : ascii -> bool) (s : string) :
  Js.allChars (fun c => negb (cls c)) (Js.removeAll cls s) = true.
Proof.
  induction s as [|c s IH]; [reflexivity|].
  cbn [Js.removeAll]. destruct (cls c) eqn:E; [exact IH|].
  cbn [Js.allChars]. now rewrite E, IH.
Qed.

Lemma removeAll_keeps (p cls : ascii -> bool) (s : string) :
  Js.allChars p s = true -> Js.allChars p (Js.removeAll cls s) = true.
Proof.
  induction s as [|c s IH]; [reflexivity|].
  cbn [Js.removeAll Js.allChars]. intros H. apply andb_prop in H as [Hc Hs].
  destruct (cls c); [now apply IH|].
  cbn [Js.allChars]. now rewrite Hc, IH.
Qed.

Lemma allChars_and (p q : ascii -> bool) (s : string) :
  Js.allChars p s = true -> Js.allChars q s = true ->
  Js.allChars (fun c => p c && q c) s = true.
Proof.
  induction s as [|c s IH]; [reflexivity|].
  cbn [Js.allChars]. intros Hp Hq.
  apply andb_prop in Hp as [-> Hp]. apply andb_prop in Hq as [-> Hq].
  now rewrite IH.
Qed.

End CamelCase.

(** X4. A key in camel case holds no whitespace, no underscore and no
    hyphen. *)
Theorem toCamelCase_has_no_separator (str : string) :
  Js.allChars (fun c => negb (Js.isSpace c) && negb (isSeparatorChar c))
    (toCamelCase str) = true.
Proof.
  unfold toCamelCase. apply allChars_and.
  - apply removeAll_keeps, removeAll_clean.
  - apply removeAll_clean.
Qed.

(** ** Diagnostics of the decoder *)

Section Diagnostics.

Lemma tableBounds_started (rest : list string) :
  forall i s e, exists e', tableBounds rest i (Some s) e = (Some s, e').
Proof.
  induction rest as [|line rest IH]; intros i s e; cbn [tableBounds].
  - now exists e.
  - destruct (isPipeRow line); [apply IH|now exists i].
Qed.

Lemma tableBounds_finds (rest : list string) :
  forall i e,
    (exists line, In line rest /\ isPipeRow line = true) ->
    exists s e', tableBounds rest i None e = (Some s, e').
Proof.
  induction rest as [|line rest IH]; intros i e (l & Hl & Hp).
  - contradiction.
  - cbn [tableBounds]. destruct (isPipeRow line) eqn:E.
    + destruct (tableBounds_started rest (S i) i e) as (e' & ->).
      now exists i, e'.
    + destruct Hl as [->|Hl]; [congruence|].
      apply IH. now exists l.
Qed.

Lemma isTable_has_pipe_row (lines : list string) :
  isTable lines = true ->
  exists line, In line lines /\ isPipeRow line = true.
Proof.
  unfold isTable. destruct (length lines <? 2)%nat; [discriminate|].
  destruct (find isPipeRow lines) as [headerRow|] eqn:E; [|discriminate].
  intros _. apply find_some in E. now exists headerRow.
Qed.

(** What [parseRows] appends to [errors]: mismatch messages of rows it
    visited. *)
Lemma parseRows_mismatches (lines headers : list string) (startIndex : nat)
    (indices : list nat) :
  forall (result : list Json) (errs : list string),
    exists rows added,
      parseRows lines headers startIndex indices result errs
      = Returned rows (errs ++ added)%list
      /\ Forall (fun e => exists i, In i indices
                                    /\ e = mismatchMessage i startIndex) added.
Proof.
  induction indices as [|i later IH]; intros result errs.
  - exists result, []. cbn [parseRows]. unfold ret.
    rewrite app_nil_r. now split.
  - assert (Hweak : forall added,
               Forall (fun e => exists j, In j later
                                          /\ e = mismatchMessage j startIndex)
                      added ->
               Forall (fun e => exists j, In j (i :: later)
                                          /\ e = mismatchMessage j startIndex)
                      added).
    { intros added. apply Forall_impl. intros e (j & Hj & E).
      exists j. split; [now right|assumption]. }
    cbn [parseRows].
    destruct (negb _ || negb _).
    { destruct (IH result errs) as (rows & added & E & H).
      exists rows, added. split; [assumption|now apply Hweak]. }
    destruct (negb (length _ =? length headers)%nat).
    + unfold bind, pushError.
      destruct (IH result (errs ++ [mismatchMessage i startIndex])%list)
        as (rows & added & -> & H).
      exists rows, (mismatchMessage i startIndex :: added).
      split; [now rewrite <- app_assoc|].
      constructor; [|now apply Hweak].
      exists i. split; [now left|reflexivity].
    + destruct (IH (result ++ [rowObject headers (rowCells (lineAt lines i)
                                                   headers)])%list errs)
        as (rows & added & E & H).
      exists rows, added. split; [assumption|now apply Hweak].
Qed.

End Diagnostics.

(** X5. The diagnostics of [markdownToJson] are of two kinds only: the
    fatal entry of a stack overflow, and the column-count mismatch of a
    table row, numbered from 1 after the separator.  In particular a table
    is never reported to lack its header. *)
Theorem markdownToJson_diagnostics
    (stack : nat) (markdown : string) (options : MarkdownToJsonOptions)
    (diagnostic : string) :
  In diagnostic (errors (markdownToJson stack markdown options)) ->
  diagnostic = fatalPrefix ++ stackOverflow
  \/ exists n, 1 <= n
               /\ diagnostic
                  = "Row " ++ Js.natToString n ++ ": column count mismatch".
Proof.
  unfold markdownToJson, decodeBody.
  destruct (default true (parseTables options)
            && isTable (trimmedLines markdown)) eqn:Htable.
  - apply andb_prop in Htable as [_ Htable].
    destruct (tableBounds_finds (trimmedLines markdown) 0
                (length (trimmedLines markdown))
                (isTable_has_pipe_row _ Htable)) as (s & e & Hbounds).
    unfold bind, parseTable. rewrite Hbounds.
    destruct (parseRows_mismatches (trimmedLines markdown)
                (tableHeaders (lineAt (trimmedLines markdown) s)
                   (default false (camelCaseKeys options)))
                s (seq (s + 2) (e - (s + 2))) [] [])
      as (rows & added & -> & Hadded).
    cbn [app ret errors]. unfold ret. cbn [errors]. intros Hin.
    rewrite Forall_forall in Hadded.
    destruct (Hadded _ Hin) as (i & Hi & ->).
    apply in_seq in Hi. right. exists (i - s - 1). split; [lia|reflexivity].
  - destruct (parseContent_quiet stack (trimmedLines markdown) 0
                (default true (parseNumberedLists options))
                (default false (camelCaseKeys options)) [])
      as [[[v j] E]|E]; unfold bind; rewrite E.
    + cbn. contradiction.
    + cbn [app errors In]. intros [<-|[]]. now left.
Qed.

Lemma markdownToJson_diagnostics_witness :
  "Row 1: column count mismatch" = fatalPrefix ++ stackOverflow
  \/ exists n, 1 <= n
               /\ "Row 1: column count mismatch"
                  = "Row " ++ Js.natToString n ++ ": column count mismatch".
Proof.
  apply (markdownToJson_diagnostics 0
           ("| a | b | c |" ++ nl ++ "| --- | --- | --- |" ++ nl ++ "| 1 |")
           noDecodeOptions).
  cbn. now left.
Defined.

(** X6. With a stack frame for every line of the input and one more, the
    decoder does not fail: no diagnostic is of the fatal tier, and outside
    a table there is no diagnostic at all. *)
Theorem markdownToJson_enough_stack
    (stack : nat) (markdown : string) (options : MarkdownToJsonOptions) :
  length (Js.split LF markdown) < stack ->
  Forall (fun e => isFatal e = false)
         (errors (markdownToJson stack markdown options))
  /\ (default true (parseTables options) && isTable (trimmedLines markdown)
      = false ->
      errors (markdownToJson stack markdown options) = []).
Proof.
  intros Hstack. unfold markdownToJson, decodeBody.
  destruct (default true (parseTables options)
            && isTable (trimmedLines markdown)).
  - destruct (parseTable_appends (trimmedLines markdown)
                (default false (camelCaseKeys options)) [])
      as (rows & added & E & Hadded).
    unfold bind. rewrite E. cbn [app]. unfold ret. cbn [errors].
    split; [assumption|discriminate].
  - destruct (parseContent_returns stack (trimmedLines markdown) 0
                (default true (parseNumberedLists options))
                (default false (camelCaseKeys options)) [])
      as (v & j & E & _).
    { unfold trimmedLines. rewrite length_map. lia. }
    unfold bind. rewrite E. unfold ret. cbn [errors].
    split; [constructor|reflexivity].
Qed.

Lemma markdownToJson_enough_stack_witness :
  errors (markdownToJson 3 ("- **a**: 1" ++ nl ++ "- **b**: 2") noDecodeOptions)
  = [].
Proof.
  apply (markdownToJson_enough_stack 3 ("- **a**: 1" ++ nl ++ "- **b**: 2")
           noDecodeOptions).
  - cbn. lia.
  - reflexivity.
Defined.

(** ** The shape of decoded values *)

Section Shapes.

Lemma parseCellValue_isCell (cell : string) :
  isCell (parseCellValue cell) = true.
Proof.
  unfold parseCellValue.
  repeat match goal with
         | |- isCell (if ?c then _ else _) = true => destruct c
         end; reflexivity.
Qed.

Lemma uniqueKeys_NoDup (keys : list string) :
  uniqueKeys keys = true <-> NoDup keys.
Proof.
  induction keys as [|k rest IH]; cbn [uniqueKeys].
  - split; [constructor|reflexivity].
  - rewrite andb_true_iff, negb_true_iff, IH. split.
    + intros [Hk Hrest]. constructor; [|assumption].
      intros Hin. apply existsb_eqb_In in Hin. congruence.
    + intros H. inversion H as [|? ? Hk Hrest]; subst. split; [|assumption].
      destruct (existsb (String.eqb k) rest) eqn:E; [|reflexivity].
      apply existsb_eqb_In in E. contradiction.
Qed.

Lemma setProp_cells (entries : list (string * Json)) (key : string)
    (value : Json) :
  isCell value = true ->
  forallb (fun entry => isCell (snd entry)) entries = true ->
  forallb (fun entry => isCell (snd entry)) (setProp entries key value) = true.
Proof.
  intros Hv. induction entries as [|[k0 v0] rest IH];
    cbn [setProp forallb snd]; intros H.
  - now rewrite Hv.
  - apply andb_prop in H as [Hv0 Hrest].
    destruct (k0 =? key); cbn [forallb snd].
    + now rewrite Hv, Hrest.
    + now rewrite Hv0, IH.
Qed.

Lemma setProp_flat (entries : list (string * Json)) (key : string)
    (value : Json) :
  isCell value = true ->
  isFlatObject (JObj entries) = true ->
  isFlatObject (JObj (setProp entries key value)) = true.
Proof.
  cbn [isFlatObject]. intros Hv H. apply andb_prop in H as [Hk Hc].
  apply andb_true_intro. split.
  - apply uniqueKeys_NoDup, setProp_keys_NoDup. now apply uniqueKeys_NoDup.
  - now apply setProp_cells.
Qed.

Lemma objectAssign_flat (source target : list (string * Json)) :
  forallb (fun entry => isCell (snd entry)) source = true ->
  isFlatObject (JObj target) = true ->
  isFlatObject (JObj (objectAssign target source)) = true.
Proof.
  unfold objectAssign. revert target.
  induction source as [|[k v] rest IH]; intros target Hs Ht; [assumption|].
  cbn [forallb snd] in Hs. apply andb_prop in Hs as [Hv Hrest].
  cbn [fold_left fst snd]. apply IH; [assumption|].
  now apply setProp_flat.
Qed.

Lemma rowObject_flat (headers cells : list string) :
  isFlatObject (rowObject headers cells) = true.
Proof.
  unfold rowObject.
  assert (H : forall pairs acc,
             isFlatObject (JObj acc) = true ->
             isFlatObject
               (JObj (fold_left
                        (fun rowObj hc =>
                           setProp rowObj (fst hc) (parseCellValue (snd hc)))
                        pairs acc)) = true).
  { induction pairs as [|p pairs IH]; intros acc Hacc; [assumption|].
    cbn [fold_left]. apply IH, setProp_flat; [|assumption].
    apply parseCellValue_isCell. }
  now apply H.
Qed.

Lemma parseRows_flat (lines headers : list string) (startIndex : nat)
    (indices : list nat) :
  forall (result : list Json) (errs : list string) rows errs',
    forallb isFlatObject result = true ->
    parseRows lines headers startIndex indices result errs
    = Returned rows errs' ->
    forallb isFlatObject rows = true.
Proof.
  induction indices as [|i later IH]; intros result errs rows errs' Hres.
  - cbn [parseRows]. unfold ret. intros E. injection E as <- _. assumption.
  - cbn [parseRows].
    destruct (negb _ || negb _); [now apply IH|].
    destruct (negb (length _ =? length headers)%nat).
    + unfold bind, pushError. now apply IH.
    + apply IH. rewrite forallb_app, Hres. cbn [forallb].
      now rewrite rowObject_flat.
Qed.

Lemma collectItems_cells (test : string -> bool) (item : string -> Json)
    (rest : list string) :
  (forall line, isCell (item line) = true) ->
  forallb isCell (collectItems test item rest) = true.
Proof.
  intros H. induction rest as [|line rest IH]; [reflexivity|].
  cbn [collectItems]. destruct (test line); [|reflexivity].
  cbn [forallb]. now rewrite H, IH.
Qed.

Lemma cells_shape (first : Json) (more : list Json) :
  isCell first = true -> forallb isCell more = true ->
  contentShape (match first :: more with
                | [only] => only
                | _ => JArr (first :: more)
                end) = true.
Proof.
  intros Hf Hm. unfold contentShape. destruct more as [|x xs].
  - now rewrite Hf.
  - cbn [isCellList forallb] in *. rewrite Hf, Hm.
    now rewrite orb_true_r.
Qed.

Lemma shape_of_object (entries : list (string * Json)) :
  contentShape (JObj entries) = true -> isFlatObject (JObj entries) = true.
Proof.
  unfold contentShape. destruct entries as [|e es]; [reflexivity|].
  cbn [isCell isCellList orb]. trivial.
Qed.

Lemma single_entry_flat (key : string) (value : Json) :
  isCell value = true -> isFlatObject (JObj [(key, value)]) = true.
Proof. intros H. cbn. now rewrite H. Qed.

Lemma parseContent_shape (stack : nat) (lines : list string) :
  forall (startIndex : nat) (parseNumberedLists camelCaseKeys : bool)
         (errs : list string) value nextIndex errs',
    parseContent stack lines startIndex parseNumberedLists camelCaseKeys errs
    = Returned (value, nextIndex) errs' ->
    contentShape value = true.
Proof.
  induction stack as [|frames IH]; intros i pn cc errs v j errs'.
  { cbn [parseContent]. discriminate. }
  cbn [parseContent].
  destruct (length lines <=? i)%nat.
  { unfold ret. intros E. injection E as <- _ _. reflexivity. }
  destruct (Js.startsWith "- " (lineAt lines i)).
  - destruct (if Js.includes "**" _ && Js.includes ":" _ then _ else None)
      as [[group1 group2]|].
    + pose proof (parseCellValue_isCell (Js.trim group2)) as Hcell.
      set (key := if cc then toCamelCase group1 else group1).
      set (inline := parseCellValue (Js.trim group2)) in *.
      unfold bind at 1.
      assert (Hres :
                forall o,
                  (if (i + 1 <? length lines)%nat
                      && Js.startsWith "  " (lineAt lines (i + 1))
                   then
                     nested <- parseContent frames lines (i + 1) pn cc ;;
                     (if isNullValue (fst nested) then ret (inline, (i + 1)%nat)
                      else ret nested)
                   else ret (inline, (i + 1)%nat)) errs = o ->
                  match o with
                  | Returned resolved _ => fst resolved = inline
                  | Thrown _ _ => True
                  end).
      { intros o <-.
        destruct ((i + 1 <? length lines)%nat
                  && Js.startsWith "  " (lineAt lines (i + 1))) eqn:Hn;
          [|reflexivity].
        apply andb_prop in Hn as [Hlt Hind]. apply Nat.ltb_lt in Hlt.
        destruct frames as [|frames']; [exact I|].
        unfold bind. now rewrite parseContent_indented. }
      specialize (Hres _ eq_refl).
      destruct (if (i + 1 <? length lines)%nat && _ then _ else _)
        as [[rv rj] re|]; [|discriminate].
      cbn [fst snd] in *. subst rv.
      destruct ((rj <? length lines)%nat
                && Js.startsWith "- " (lineAt lines rj)).
      * unfold bind.
        destruct (parseContent frames lines rj pn cc re)
          as [[mv mj] me|] eqn:Em; [|discriminate].
        apply IH in Em. cbn [fst snd].
        destruct mv; unfold ret; intros E; injection E as <- _ _;
          unfold contentShape;
          try (rewrite (single_entry_flat key inline Hcell);
               now rewrite orb_true_r).
        apply shape_of_object in Em.
        rewrite objectAssign_flat; [now rewrite orb_true_r| |].
        -- cbn [isFlatObject] in Em. now apply andb_prop in Em as [_ ?].
        -- now apply single_entry_flat.
      * unfold ret. intros E. injection E as <- _ _.
        unfold contentShape. rewrite (single_entry_flat key inline Hcell).
        now rewrite orb_true_r.
    + unfold ret. intros E. injection E as <- _ _.
      apply cells_shape; [apply parseCellValue_isCell|].
      apply collectItems_cells. intros line. apply parseCellValue_isCell.
  - destruct (pn && isNumbered (lineAt lines i)).
    + unfold ret. intros E. injection E as <- _ _.
      unfold contentShape. cbn [isCellList forallb].
      rewrite parseCellValue_isCell, collectItems_cells;
        [now rewrite orb_true_r|].
      intros line. apply parseCellValue_isCell.
    + unfold ret. intros E. injection E as <- _ _. reflexivity.
Qed.

Lemma isCell_depth (v : Json) : isCell v = true -> nestDepth v = 0.
Proof.
  destruct v as [ | | | | | | [|x xs] | [|x xs]]; cbn; congruence.
Qed.

Lemma cells_depth (items : list Json) :
  forallb isCell items = true -> nestDepth (JArr items) <= 1.
Proof.
  intros H. destruct items as [|x xs]; [cbn; lia|].
  cbn [nestDepth]. apply le_n_S. apply list_max_le.
  rewrite Forall_map, Forall_forall. intros y Hy.
  rewrite forallb_forall in H. rewrite (isCell_depth y (H y Hy)). lia.
Qed.

Lemma flatObject_depth (v : Json) : isFlatObject v = true -> nestDepth v <= 1.
Proof.
  destruct v as [ | | | | | | items | entries]; try discriminate.
  cbn [isFlatObject]. intros H. apply andb_prop in H as [_ H].
  destruct entries as [|e es]; [cbn; lia|].
  cbn [nestDepth]. apply le_n_S. apply list_max_le.
  rewrite Forall_map, Forall_forall. intros y Hy.
  rewrite forallb_forall in H. rewrite (isCell_depth _ (H y Hy)). lia.
Qed.

Lemma isDecoded_depth (v : Json) : isDecoded v = true -> nestDepth v <= 2.
Proof.
  unfold isDecoded. rewrite !orb_true_iff. intros [[[H|H]|H]|H].
  - rewrite (isCell_depth v H). lia.
  - destruct v; try discriminate. pose proof (cells_depth items H). lia.
  - pose proof (flatObject_depth v H). lia.
  - destruct v as [ | | | | | | rows | ]; try discriminate.
    cbn [isRowList] in H. destruct rows as [|r rs]; [cbn; lia|].
    cbn [nestDepth]. apply le_n_S. apply list_max_le.
    rewrite Forall_map, Forall_forall. intros y Hy.
    rewrite forallb_forall in H. apply flatObject_depth. now apply H.
Qed.

End Shapes.

(** X7. Whatever the input, the decoded value is flat: a cell, a list of
    cells, a mapping of distinct keys to cells, or (from a table) a list
    of such mappings.  It holds no [undefined] and no date, and it is
    never nested more than two levels deep; in particular no mapping is
    ever the value of a key. *)
Theorem markdownToJson_output_is_flat
    (stack : nat) (markdown : string) (options : MarkdownToJsonOptions) :
  isDecoded (data (markdownToJson stack markdown options)) = true
  /\ nestDepth (data (markdownToJson stack markdown options)) <= 2.
Proof.
  assert (H : isDecoded (data (markdownToJson stack markdown options)) = true).
  { unfold markdownToJson, decodeBody.
    destruct (default true (parseTables options)
              && isTable (trimmedLines markdown)).
    - unfold bind at 1.
      destruct (parseTable (trimmedLines markdown)
                  (default false (camelCaseKeys options)) [])
        as [rows errs|] eqn:E; [|reflexivity].
      unfold ret. cbn [data]. unfold isDecoded. cbn [isRowList].
      unfold parseTable in E.
      destruct (tableBounds _ _ _ _) as [[s|] e].
      + apply parseRows_flat in E; [|reflexivity].
        rewrite E. now rewrite !orb_true_r.
      + unfold bind, pushError, ret in E. injection E as <- _.
        reflexivity.
    - unfold bind at 1.
      destruct (parseContent stack (trimmedLines markdown) 0 _ _ [])
        as [[v j] errs|] eqn:E; [|reflexivity].
      apply parseContent_shape in E. unfold ret. cbn [data fst].
      unfold isDecoded. unfold contentShape in E. now rewrite E. }
  split; [assumption|now apply isDecoded_depth].
Qed.

(** ** Rows of a table *)

Section Rows.

Lemma tableBounds_all_rows (rest : list string) :
  forall i s e,
    Forall (fun line => isPipeRow line = true) rest ->
    tableBounds rest i (Some s) e = (Some s, e).
Proof.
  induction rest as [|line rest IH]; intros i s e H; [reflexivity|].
  inversion H as [|? ? Hline Hrest]; subst.
  cbn [tableBounds]. rewrite Hline. now apply IH.
Qed.

Lemma tableBounds_whole (lines : list string) (i e : nat) :
  lines <> [] ->
  Forall (fun line => isPipeRow line = true) lines ->
  tableBounds lines i None e = (Some i, e).
Proof.
  destruct lines as [|line rest]; [congruence|]. intros _ H.
  inversion H as [|? ? Hline Hrest]; subst.
  cbn [tableBounds]. rewrite Hline. now apply tableBounds_all_rows.
Qed.

Lemma isPipeRow_visited (row : string) :
  isPipeRow row = true ->
  negb (Js.startsWith "|" row) || negb (Js.endsWith "|" row) = false.
Proof.
  unfold isPipeRow. intros H. apply andb_prop in H as [-> ->]. reflexivity.
Qed.

Lemma skipn_lineAt (lines : list string) (i : nat) :
  i < length lines ->
  skipn i lines = lineAt lines i :: skipn (S i) lines.
Proof.
  revert i. induction lines as [|l lines IH]; intros i Hi.
  - cbn [length] in Hi. lia.
  - destruct i as [|i]; [reflexivity|].
    cbn [skipn lineAt nth]. apply IH. cbn [length] in Hi. lia.
Qed.

Lemma setProp_fresh (entries : list (string * Json)) (key : string)
    (value : Json) :
  ~ In key (map fst entries) ->
  setProp entries key value = (entries ++ [(key, value)])%list.
Proof.
  induction entries as [|[k0 v0] rest IH]; [reflexivity|].
  cbn [map fst In setProp app]. intros H.
  destruct (String.eqb_spec k0 key) as [->|_]; [tauto|].
  rewrite IH; [reflexivity|tauto].
Qed.

Lemma combine_keys_NoDup (headers : list string) :
  NoDup headers ->
  forall cells : list string, NoDup (map fst (combine headers cells)).
Proof.
  induction 1 as [|h hs Hh Hhs IH]; intros cells; [constructor|].
  destruct cells as [|c cs]; [constructor|].
  cbn [combine map fst]. constructor; [|apply IH].
  intros Hin. apply Hh. apply in_map_iff in Hin as ([h' c'] & E & Hin).
  cbn [fst] in E. subst h'. now apply in_combine_l in Hin.
Qed.

Lemma rowObject_fold (pairs : list (string * string)) :
  forall acc : list (string * Json),
    NoDup (map fst acc ++ map fst pairs)%list ->
    fold_left
      (fun rowObj hc => setProp rowObj (fst hc) (parseCellValue (snd hc)))
      pairs acc
    = (acc ++ map (fun hc => (fst hc, parseCellValue (snd hc))) pairs)%list.
Proof.
  induction pairs as [|[h c] pairs IH]; intros acc H; cbn [fold_left map].
  - now rewrite app_nil_r.
  - cbn [fst snd map] in *.
    rewrite setProp_fresh.
    + rewrite IH.
      * now rewrite <- app_assoc.
      * rewrite map_app. cbn [map fst]. now rewrite <- app_assoc.
    + apply NoDup_remove_2 in H. intros Hin. apply H.
      apply in_or_app. now left.
Qed.

Lemma rowObject_combine (headers cells : list string) :
  NoDup headers ->
  rowObject headers cells
  = JObj (combine headers (map parseCellValue cells)).
Proof.
  intros H. unfold rowObject. rewrite rowObject_fold.
  - cbn [app]. f_equal. revert cells.
    induction headers as [|h hs IH]; intros cells; [reflexivity|].
    destruct cells as [|c cs]; [reflexivity|].
    cbn [combine map fst snd]. f_equal. apply IH.
    now inversion H.
  - cbn [map app]. now apply combine_keys_NoDup.
Qed.

(** The second loop over the lines from [start] to the end, when every
    one of them is a row of the table. *)
Lemma parseRows_counts (lines headers : list string) (startIndex : nat)
    (indices : list nat) :
  (forall i, In i indices -> isPipeRow (lineAt lines i) = true) ->
  forall (result : list Json) (errs : list string),
    exists rows added,
      parseRows lines headers startIndex indices result errs
      = Returned rows (errs ++ added)%list
      /\ length rows + length added = length result + length indices.
Proof.
  induction indices as [|i later IH]; intros Hrows result errs.
  - exists result, []. cbn [parseRows length]. unfold ret.
    rewrite app_nil_r. split; [reflexivity|lia].
  - assert (Hlater : forall j, In j later -> isPipeRow (lineAt lines j) = true).
    { intros j Hj. apply Hrows. now right. }
    cbn [parseRows].
    rewrite (isPipeRow_visited _ (Hrows i (or_introl eq_refl))).
    destruct (negb (length _ =? length headers)%nat).
    + unfold bind, pushError.
      destruct (IH Hlater result (errs ++ [mismatchMessage i startIndex])%list)
        as (rows & added & -> & Hcount).
      exists rows, (mismatchMessage i startIndex :: added).
      split; [now rewrite <- app_assoc|]. cbn [length]. lia.
    + destruct (IH Hlater
                  (result ++ [rowObject headers
                                (rowCells (lineAt lines i) headers)])%list errs)
        as (rows & added & -> & Hcount).
      exists rows, added. split; [reflexivity|].
      rewrite length_app in Hcount. cbn [length] in *. lia.
Qed.

Lemma parseRows_all_good (lines headers : list string) (startIndex : nat)
    (n : nat) :
  NoDup headers ->
  forall (start : nat) (result : list Json) (errs : list string),
    start + n = length lines ->
    (forall i, start <= i < length lines ->
               isPipeRow (lineAt lines i) = true
               /\ length headers < length (Js.split "|" (lineAt lines i))) ->
    parseRows lines headers startIndex (seq start n) result errs
    = Returned
        (result
         ++ map (fun row =>
                   JObj (combine headers
                           (map parseCellValue (rowCells row headers))))
                (skipn start lines))%list errs.
Proof.
  intros Hnodup. induction n as [|n IH]; intros start result errs Hlen Hgood.
  - cbn [seq parseRows]. rewrite skipn_all2 by lia.
    cbn [map]. now rewrite app_nil_r.
  - cbn [seq parseRows].
    destruct (Hgood start) as [Hpipe Hwide]; [lia|].
    rewrite (isPipeRow_visited _ Hpipe), (wide_row_accepted _ _ Hwide).
    cbn [negb]. rewrite IH.
    + rewrite (skipn_lineAt lines start) by lia.
      cbn [map]. rewrite <- app_assoc. cbn [app].
      now rewrite rowObject_combine.
    + lia.
    + intros i Hi. apply Hgood. lia.
Qed.

End Rows.

(** X8. Every line of a table after the header and the separator is
    accounted for: it becomes a row of the result or a diagnostic. *)
Theorem parseTable_accounts_for_every_row
    (header separator : string) (dataLines : list string)
    (camelCaseKeys : bool) (errs : list string) :
  Forall (fun line => isPipeRow line = true)
         (header :: separator :: dataLines) ->
  exists rows added,
    parseTable (header :: separator :: dataLines) camelCaseKeys errs
    = Returned rows (errs ++ added)%list
    /\ length rows + length added = length dataLines.
Proof.
  intros H. unfold parseTable.
  rewrite tableBounds_whole by (assumption || congruence).
  destruct (parseRows_counts (header :: separator :: dataLines)
              (tableHeaders (lineAt (header :: separator :: dataLines) 0)
                 camelCaseKeys)
              0 (seq (0 + 2) (length (header :: separator :: dataLines) - (0 + 2))))
    with (result := @nil Json) (errs := errs)
    as (rows & added & E & Hcount).
  - intros i Hi. apply in_seq in Hi. rewrite Forall_forall in H.
    apply H. apply nth_In. cbn [length] in *. lia.
  - exists rows, added. split; [exact E|].
    rewrite length_seq in Hcount. cbn [length] in *. lia.
Qed.

Lemma parseTable_accounts_for_every_row_witness :
  exists rows added,
    parseTable ["| a | b | c |"; "| - | - | - |"; "| 1 |"; "| 1 | 2 | 3 |"]
      false []
    = Returned rows ([] ++ added)%list
    /\ length rows + length added = 2.
Proof.
  apply (parseTable_accounts_for_every_row "| a | b | c |" "| - | - | - |"
           ["| 1 |"; "| 1 | 2 | 3 |"] false []).
  repeat constructor.
Defined.

(** A table of good rows is decoded row by row. *)
Lemma parseTable_good_rows
    (header separator : string) (dataLines : list string)
    (camelCaseKeys : bool) (errs : list string) :
  let headers := tableHeaders header camelCaseKeys in
  Forall (fun line => isPipeRow line = true)
         (header :: separator :: dataLines) ->
  NoDup headers ->
  Forall (fun row => length headers < length (Js.split "|" row)) dataLines ->
  parseTable (header :: separator :: dataLines) camelCaseKeys errs
  = Returned
      (map (fun row =>
              JObj (combine headers
                      (map parseCellValue (rowCells row headers))))
           dataLines) errs.
Proof.
  cbv zeta. intros H Hnodup Hwide. unfold parseTable.
  rewrite tableBounds_whole by (assumption || congruence).
  change (lineAt (header :: separator :: dataLines) 0) with header.
  rewrite parseRows_all_good; [reflexivity|assumption|cbn [length]; lia|].
  intros i Hi. cbn [length] in Hi.
  destruct i as [|[|i]]; [lia|lia|].
  change (lineAt (header :: separator :: dataLines) (S (S i)))
    with (nth i dataLines EmptyString).
  assert (Hin : In (nth i dataLines EmptyString) dataLines).
  { apply nth_In. lia. }
  split.
  - rewrite Forall_forall in H. apply H. now right; right.
  - rewrite Forall_forall in Hwide. now apply Hwide.
Qed.



(** ** Lists *)

Section Lists.

Lemma collectItems_run (test : string -> bool) (item : string -> Json)
    (run tail : list string) :
  Forall (fun line => test line = true) run ->
  match tail with
  | [] => True
  | stop :: _ => test stop = false
  end ->
  collectItems test item (run ++ tail) = map item run.
Proof.
  intros Hrun Htail. induction Hrun as [|line run Hline _ IH].
  - destruct tail as [|stop tail]; [reflexivity|].
    cbn [app collectItems]. now rewrite Htail.
  - cbn [app collectItems map]. now rewrite Hline, IH.
Qed.

Lemma isNumbered_not_bullet (line : string) :
  isNumbered line = true -> Js.startsWith "- " line = false.
Proof.
  destruct line as [|c rest]; [reflexivity|].
  unfold isNumbered. cbn [Js.span Js.startsWith].
  destruct (Ascii.eqb_spec "-" c) as [<-|_]; [discriminate|reflexivity].
Qed.

End Lists.

(** X10. A run of bullet lines whose first item has no bold marker is read
    as the list of all its items, each read as a scalar, whether or not
    the later items look like key-value pairs; a run of one bullet is read
    as the item itself, not as a list of one.  The run ends at the first
    line that is not a bullet, and nothing after it is read. *)
Theorem parseContent_bullet_list
    (frames : nat) (first : string) (run tail : list string)
    (parseNumberedLists camelCaseKeys : bool) (errs : list string) :
  Js.startsWith "- " first = true ->
  Js.includes "**" (Js.trim (Js.sliceFrom 2 first)) = false ->
  Forall (fun line => Js.startsWith "- " line = true) run ->
  match tail with
  | [] => True
  | stop :: _ => Js.startsWith "- " stop = false
  end ->
  parseContent (S frames) (first :: run ++ tail) 0 parseNumberedLists
    camelCaseKeys errs
  = Returned (match run with
              | [] => bulletItem first
              | _ => JArr (map bulletItem (first :: run))
              end, S (length run)) errs.
Proof.
  intros Hfirst Hplain Hrun Htail. cbn [parseContent].
  change (lineAt (first :: run ++ tail) 0) with first.
  cbn [length Nat.leb]. rewrite Hfirst, Hplain. cbn [andb].
  change (skipn (0 + 1) (first :: run ++ tail)) with (run ++ tail)%list.
  rewrite collectItems_run by assumption.
  unfold ret. cbn [length]. rewrite length_map.
  destruct run; reflexivity.
Qed.

Lemma parseContent_bullet_list_witness :
  parseContent 1 ["- apple"; "- **k**: v"; "text"; "- pear"] 0 true false []
  = Returned (JArr [JStr "apple"; JStr "**k**: v"], 2) [].
Proof.
  apply (parseContent_bullet_list 0 "- apple" ["- **k**: v"]
           ["text"; "- pear"] true false []);
    repeat constructor.
Defined.

(** X11. A run of numbered lines is read as the list of its items, each
    read as a scalar, whatever the numbers are; a run of one line is still
    a list.  The run ends at the first line that is not numbered. *)
Theorem parseContent_numbered_list
    (frames : nat) (first : string) (run tail : list string)
    (camelCaseKeys : bool) (errs : list string) :
  Forall (fun line => isNumbered line = true) (first :: run) ->
  match tail with
  | [] => True
  | stop :: _ => isNumbered stop = false
  end ->
  parseContent (S frames) (first :: run ++ tail) 0 true camelCaseKeys errs
  = Returned (JArr (map numberedItem (first :: run)), S (length run)) errs.
Proof.
  intros Hrun Htail. inversion Hrun as [|? ? Hfirst Hrest]; subst.
  cbn [parseContent].
  change (lineAt (first :: run ++ tail) 0) with first.
  cbn [length Nat.leb].
  rewrite (isNumbered_not_bullet _ Hfirst), Hfirst. cbn [andb].
  change (skipn (0 + 1) (first :: run ++ tail)) with (run ++ tail)%list.
  rewrite collectItems_run by assumption.
  unfold ret. cbn [length map]. now rewrite length_map.
Qed.

Lemma parseContent_numbered_list_witness :
  parseContent 1 ["7. first"; "7. 2"; "- x"] 0 true false []
  = Returned (JArr [JStr "first"; num 2], 2) [].
Proof.
  apply (parseContent_numbered_list 0 "7. first" ["7. 2"] ["- x"] false []);
    repeat constructor.
Defined.

(** X12. The decoder reads one unit, from the first line.  When the first
    line of the input is neither a bullet nor a numbered item, and the
    input is not taken as a table, the result is [null] without a
    diagnostic, whatever the later lines hold. *)
Theorem markdownToJson_unrecognised_first_line
    (frames : nat) (markdown : string) (options : MarkdownToJsonOptions) :
  default true (parseTables options) && isTable (trimmedLines markdown)
  = false ->
  Js.startsWith "- " (lineAt (trimmedLines markdown) 0) = false ->
  default true (parseNumberedLists options)
  && isNumbered (lineAt (trimmedLines markdown) 0) = false ->
  markdownToJson (S frames) markdown options
  = {| data := JNull; errors := [] |}.
Proof.
  intros Htable Hbullet Hnumbered.
  unfold markdownToJson, decodeBody. rewrite Htable.
  unfold bind at 1. cbn [parseContent].
  rewrite Hbullet, Hnumbered.
  now destruct (length (trimmedLines markdown) <=? 0)%nat.
Qed.

Lemma markdownToJson_unrecognised_first_line_witness :
  markdownToJson 1 ("# Title" ++ nl ++ "- a" ++ nl ++ "- b") noDecodeOptions
  = {| data := JNull; errors := [] |}.
Proof.
  apply (markdownToJson_unrecognised_first_line 0
           ("# Title" ++ nl ++ "- a" ++ nl ++ "- b") noDecodeOptions);
    reflexivity.
Defined.

(** ** Integers as text *)

Section IntegerText.

Lemma of_uint_head (d : Decimal.uint) :
  d <> Decimal.Nil ->
  N.of_uint d
  = (DecimalPos.Unsigned.hd d * 10 ^ DecimalPos.Unsigned.usize
                                        (DecimalPos.Unsigned.tl d)
     + N.of_uint (DecimalPos.Unsigned.tl d))%N.
Proof.
  intros Hd. unfold N.of_uint.
  rewrite !DecimalPos.Unsigned.of_uint_alt.
  destruct d; [congruence| ..]; unfold Decimal.rev; cbn [Decimal.revapp];
    rewrite DecimalPos.Unsigned.of_lu_revapp;
    cbn [DecimalPos.Unsigned.hd DecimalPos.Unsigned.tl
         DecimalPos.Unsigned.of_lu]; unfold Decimal.rev; lia.
Qed.

Lemma fold_digits (d : Decimal.uint) :
  forall acc : Z,
    fold_left (fun acc c => (10 * acc + Num.digitValue c)%Z)
      (list_ascii_of_string (NilEmpty.string_of_uint d)) acc
    = (acc * 10 ^ Z.of_N (DecimalPos.Unsigned.usize d)
       + Z.of_N (N.of_uint d))%Z.
Proof.
  induction d; intros acc;
    [cbn; lia| ..];
    cbn [NilEmpty.string_of_uint list_ascii_of_string fold_left];
    rewrite IHd;
    match goal with
    | |- _ = (_ + Z.of_N (N.of_uint ?x))%Z =>
        rewrite (of_uint_head x) by discriminate
    end;
    cbn [DecimalPos.Unsigned.hd DecimalPos.Unsigned.tl
         DecimalPos.Unsigned.usize];
    rewrite N2Z.inj_add, N2Z.inj_mul, N2Z.inj_pow, N2Z.inj_succ,
      Z.pow_succ_r by lia;
    change (Z.of_N 10) with 10%Z;
    generalize (10 ^ Z.of_N (DecimalPos.Unsigned.usize d))%Z;
    generalize (Z.of_N (N.of_uint d));
    intros value power; vm_compute (Num.digitValue _); cbn [Z.of_N]; lia.
Qed.


Lemma to_uint_filled (n : N) : N.to_uint n <> Decimal.Nil.
Proof.
  destruct n as [|p]; [discriminate|].
  apply DecimalPos.Unsigned.to_uint_nonnil.
Qed.

Lemma digitsOf_text (m : Z) :
  Num.digitsOf m = NilEmpty.string_of_uint (N.to_uint (Z.abs_N m)).
Proof.
  unfold Num.digitsOf, NilZero.string_of_uint.
  pose proof (to_uint_filled (Z.abs_N m)) as H.
  now destruct (N.to_uint (Z.abs_N m)).
Qed.

Lemma digitsValue_digitsOf (m : Z) : Num.digitsValue (Num.digitsOf m) = Z.abs m.
Proof.
  unfold Num.digitsValue. rewrite digitsOf_text, fold_digits.
  rewrite DecimalN.Unsigned.of_to, N2Z.inj_abs_N. lia.
Qed.

Lemma uint_text_digits (d : Decimal.uint) :
  Js.allChars Js.isDigit (NilEmpty.string_of_uint d) = true.
Proof.
  induction d; cbn [NilEmpty.string_of_uint Js.allChars];
    rewrite ?IHd; reflexivity.
Qed.

Lemma uint_text_length (d : Decimal.uint) :
  Z.of_nat (String.length (NilEmpty.string_of_uint d))
  = Z.of_N (DecimalPos.Unsigned.usize d).
Proof.
  induction d;
    cbn [NilEmpty.string_of_uint String.length DecimalPos.Unsigned.usize];
    [reflexivity| ..]; rewrite Nat2Z.inj_succ, IHd; lia.
Qed.

Lemma digitsOf_digits (m : Z) : Js.allChars Js.isDigit (Num.digitsOf m) = true.
Proof. rewrite digitsOf_text. apply uint_text_digits. Qed.

Lemma leading_digit (d : Decimal.uint) :
  Decimal.unorm d = d -> d <> Decimal.zero -> d <> Decimal.Nil ->
  (1 <= DecimalPos.Unsigned.hd d)%N.
Proof.
  intros Hnorm Hzero Hnil.
  destruct d; cbn [DecimalPos.Unsigned.hd]; try lia; try congruence.
  rewrite DecimalFacts.unorm_D0 in Hnorm.
  destruct (Decimal.uint_eq_dec d Decimal.Nil) as [->|Hd]; [now elim Hzero|].
  pose proof (DecimalFacts.nb_digits_unorm d Hd) as Hle.
  rewrite Hnorm in Hle. cbn [Decimal.nb_digits] in Hle. lia.
Qed.

(** The digits of a non-zero number: as many as its magnitude needs. *)
Lemma digitsOf_magnitude (m : Z) :
  m <> 0%Z ->
  (10 ^ (Z.of_nat (String.length (Num.digitsOf m)) - 1) <= Z.abs m)%Z.
Proof.
  intros Hm. rewrite digitsOf_text, uint_text_length.
  destruct (Z.abs_N m) as [|p] eqn:E.
  { apply (f_equal Z.of_N) in E. rewrite N2Z.inj_abs_N in E. cbn in E. lia. }
  assert (Hp : Z.abs m = Z.of_N (N.pos p)).
  { rewrite <- E, N2Z.inj_abs_N. reflexivity. }
  set (d := N.to_uint (N.pos p)).
  assert (Hnorm : Decimal.unorm d = d).
  { unfold d. rewrite <- DecimalN.Unsigned.to_of.
    now rewrite DecimalN.Unsigned.of_to. }
  assert (Hzero : d <> Decimal.zero).
  { apply DecimalPos.Unsigned.to_uint_nonzero. }
  assert (Hnil : d <> Decimal.Nil) by apply to_uint_filled.
  pose proof (leading_digit d Hnorm Hzero Hnil) as Hhd.
  assert (Hval : N.of_uint d = N.pos p) by apply DecimalN.Unsigned.of_to.
  rewrite (of_uint_head d Hnil) in Hval.
  rewrite Hp, <- Hval.
  assert (Hsize : DecimalPos.Unsigned.usize d
                  = N.succ (DecimalPos.Unsigned.usize
                              (DecimalPos.Unsigned.tl d))).
  { destruct d; [congruence| ..]; reflexivity. }
  rewrite Hsize, N2Z.inj_succ, N2Z.inj_add, N2Z.inj_mul, N2Z.inj_pow.
  replace (Z.succ (Z.of_N (DecimalPos.Unsigned.usize
                             (DecimalPos.Unsigned.tl d))) - 1)%Z
    with (Z.of_N (DecimalPos.Unsigned.usize (DecimalPos.Unsigned.tl d)))
    by lia.
  change (Z.of_N 10) with 10%Z.
  assert (Hpow : (0 < 10 ^ Z.of_N (DecimalPos.Unsigned.usize
                                     (DecimalPos.Unsigned.tl d)))%Z)
    by (apply Z.pow_pos_nonneg; lia).
  nia.
Qed.

Lemma fold_zeros (n : nat) :
  forall acc : Z,
    fold_left (fun acc c => (10 * acc + Num.digitValue c)%Z)
      (list_ascii_of_string (Num.zeros n)) acc
    = (acc * 10 ^ Z.of_nat n)%Z.
Proof.
  induction n as [|n IH]; intros acc.
  - cbn. lia.
  - cbn [Num.zeros list_ascii_of_string fold_left].
    rewrite IH, Nat2Z.inj_succ, Z.pow_succ_r by lia.
    vm_compute (Num.digitValue _). lia.
Qed.

Lemma list_ascii_app (a b : string) :
  list_ascii_of_string (a ++ b)
  = (list_ascii_of_string a ++ list_ascii_of_string b)%list.
Proof.
  induction a as [|c a IH]; [reflexivity|].
  cbn [append list_ascii_of_string]. now rewrite IH.
Qed.

Lemma zeros_digits (n : nat) : Js.allChars Js.isDigit (Num.zeros n) = true.
Proof. induction n as [|n IH]; [reflexivity|exact IH]. Qed.

Lemma allChars_app (p : ascii -> bool) (a b : string) :
  Js.allChars p a = true -> Js.allChars p b = true ->
  Js.allChars p (a ++ b) = true.
Proof.
  intros Ha Hb. induction a as [|c a IH]; [assumption|].
  cbn [append Js.allChars] in *. apply andb_prop in Ha as [-> Ha].
  now apply IH.
Qed.

Lemma stripZeros_value (fuel : nat) :
  forall m e m' e',
    (0 <= e)%Z ->
    Num.stripZeros fuel m e = (m', e') ->
    (m * 10 ^ e = m' * 10 ^ e')%Z /\ (0 <= e')%Z /\ (m <> 0 -> m' <> 0)%Z.
Proof.
  induction fuel as [|fuel IH]; intros m e m' e' He; cbn [Num.stripZeros].
  - intros E. injection E as <- <-. auto.
  - destruct (Z.eqb_spec m 0) as [->|Hm].
    { intros E. injection E as <- <-. cbn. lia. }
    destruct (Z.eqb_spec (m mod 10) 0) as [Hmod|Hmod].
    + intros E. apply IH in E; [|lia]. destruct E as (E & He' & Hnz).
      pose proof (Z.div_mod m 10 ltac:(lia)) as Hdm.
      rewrite Z.pow_add_r in E by lia.
      repeat split; [|assumption|].
      * rewrite <- E. change (10 ^ 1)%Z with 10%Z. nia.
      * intros _. apply Hnz. lia.
    + intros E. injection E as <- <-. auto.
Qed.


Lemma digit_not_space (c : ascii) :
  Js.isDigit c = true -> Js.isSpace c = false.
Proof.
  unfold Js.isDigit, Js.isSpace. generalize (Js.code c) as n. intros n H.
  apply andb_prop in H as [H1 H2].
  apply Nat.leb_le in H1. apply Nat.leb_le in H2.
  destruct (Nat.leb_spec 9 n), (Nat.leb_spec n 13),
    (Nat.eqb_spec n 32), (Nat.eqb_spec n 160); cbn; lia || reflexivity.
Qed.

Lemma digits_not_spaces (s : string) :
  Js.allChars Js.isDigit s = true ->
  Js.allChars (fun c => negb (Js.isSpace c)) s = true.
Proof.
  induction s as [|c s IH]; [reflexivity|].
  cbn [Js.allChars]. intros H. apply andb_prop in H as [Hc Hs].
  now rewrite (digit_not_space c Hc), IH.
Qed.

Lemma trimEnd_clean (s : string) :
  Js.allChars (fun c => negb (Js.isSpace c)) s = true -> Js.trimEnd s = s.
Proof.
  induction s as [|c s IH]; [reflexivity|].
  cbn [Js.allChars Js.trimEnd]. intros H. apply andb_prop in H as [Hc Hs].
  rewrite (IH Hs). apply negb_true_iff in Hc. rewrite Hc.
  now destruct s.
Qed.

Lemma trim_clean (s : string) :
  Js.allChars (fun c => negb (Js.isSpace c)) s = true -> Js.trim s = s.
Proof.
  intros H. unfold Js.trim.
  replace (Js.trimStart s) with s; [now apply trimEnd_clean|].
  destruct s as [|c s]; [reflexivity|].
  cbn [Js.allChars] in H. apply andb_prop in H as [Hc _].
  apply negb_true_iff in Hc. cbn [Js.trimStart]. now rewrite Hc.
Qed.

Lemma stripMinus_spec (c : ascii) (rest : string) :
  Num.stripMinus (String c rest)
  = if Ascii.eqb c "-" then (true, rest) else (false, String c rest).
Proof.
  destruct c as [[] [] [] [] [] [] [] []]; reflexivity.
Qed.

Lemma stripMinus_digits (body : string) :
  Js.allChars Js.isDigit body = true -> Num.stripMinus body = (false, body).
Proof.
  destruct body as [|c rest]; [reflexivity|].
  cbn [Js.allChars]. intros H. apply andb_prop in H as [Hc _].
  rewrite stripMinus_spec.
  destruct (Ascii.eqb_spec c "-") as [->|_]; [discriminate Hc|reflexivity].
Qed.

Lemma isInteger_clean (t : string) :
  Num.isInteger t = true ->
  Js.allChars (fun c => negb (Js.isSpace c)) t = true.
Proof.
  unfold Num.isInteger. destruct t as [|c rest]; [discriminate|].
  rewrite stripMinus_spec. destruct (Ascii.eqb_spec c "-") as [->|_].
  - intros H. apply andb_prop in H as [_ H].
    cbn [Js.allChars]. now rewrite digits_not_spaces.
  - intros H. apply andb_prop in H as [_ H]. now apply digits_not_spaces.
Qed.

(** A text that satisfies the integer pattern is read as a number. *)
Lemma parseCellValue_integer (t : string) :
  Num.isInteger t = true -> parseCellValue t = JNum (Num.parseInt t).
Proof.
  intros H. unfold parseCellValue. rewrite (trim_clean t (isInteger_clean t H)).
  destruct (String.eqb_spec t "_null_") as [E|_]; [now rewrite E in H|].
  destruct (String.eqb_spec t "null") as [E|_]; [now rewrite E in H|].
  destruct (String.eqb_spec t EmptyString) as [E|_]; [now rewrite E in H|].
  destruct (String.eqb_spec t "true") as [E|_]; [now rewrite E in H|].
  destruct (String.eqb_spec t "false") as [E|_]; [now rewrite E in H|].
  cbn [orb]. now rewrite H.
Qed.

Lemma digitsOf_filled (m : Z) :
  exists c rest, Num.digitsOf m = String c rest /\ Js.isDigit c = true.
Proof.
  pose proof (digitsOf_digits m) as Hd. rewrite digitsOf_text in *.
  pose proof (to_uint_filled (Z.abs_N m)) as Hn.
  destruct (N.to_uint (Z.abs_N m)); [congruence| ..];
    cbn [NilEmpty.string_of_uint] in *; eexists _, _; split; reflexivity.
Qed.

Lemma digitsValue_app_zeros (ds : string) (n : nat) :
  Num.digitsValue (ds ++ Num.zeros n)
  = (Num.digitsValue ds * 10 ^ Z.of_nat n)%Z.
Proof.
  unfold Num.digitsValue.
  now rewrite list_ascii_app, fold_left_app, fold_zeros.
Qed.

(** The text of a non-zero integer of at most 21 digits: its sign, the
    digits of its mantissa and the zeros of its exponent. *)
Lemma toString_integer (m e : Z) :
  m <> 0%Z -> (0 <= e)%Z -> (Z.abs m * 10 ^ e < 10 ^ 21)%Z ->
  Num.toString (Finite m e)
  = (if (m <? 0)%Z then "-" else EmptyString)
      ++ Num.digitsOf m ++ Num.zeros (Z.to_nat e).
Proof.
  intros Hm He Hbound. cbn [Num.toString].
  destruct (Z.eqb_spec m 0) as [|_]; [contradiction|].
  pose proof (digitsOf_magnitude m Hm) as Hmag.
  destruct (digitsOf_filled m) as (c & rest & Hds & _).
  set (k := Z.of_nat (String.length (Num.digitsOf m))) in *.
  assert (Hk : (1 <= k)%Z).
  { unfold k. rewrite Hds. cbn [String.length]. lia. }
  assert (Hfit : (k + e <= 21)%Z).
  { assert (Hpow : (10 ^ (k - 1 + e) < 10 ^ 21)%Z).
    { rewrite Z.pow_add_r by lia.
      assert (0 < 10 ^ e)%Z by (apply Z.pow_pos_nonneg; lia). nia. }
    apply Z.pow_lt_mono_r_iff in Hpow; lia. }
  unfold Num.positiveToString. fold k.
  destruct (Z.leb_spec k (k + e)); [|lia].
  destruct (Z.leb_spec (k + e) 21); [|lia].
  cbn [andb]. replace (k + e - k)%Z with e by lia.
  now destruct (m <? 0)%Z.
Qed.

(** The text of an integer of at most 21 digits satisfies the integer
    pattern, and [parseInt] reads the integer back from it. *)
Lemma integer_text (z : Z) :
  (Z.abs z < 10 ^ 21)%Z ->
  Num.isInteger (stringOf (num z)) = true
  /\ Num.parseInt (stringOf (num z)) = Num.normalize z 0.
Proof.
  intros Hbound.
  destruct (Z.eq_dec z 0) as [->|Hz]; [split; reflexivity|].
  unfold num, decimal. cbn [stringOf]. unfold Num.normalize at 1 2.
  destruct (Num.stripZeros (S (String.length (Num.digitsOf z))) z 0)
    as [m e] eqn:E.
  destruct (stripZeros_value _ _ _ _ _ (Z.le_refl 0) E) as (Hval & He & Hm).
  specialize (Hm Hz). rewrite Z.pow_0_r, Z.mul_1_r in Hval.
  assert (Hpos : (0 < 10 ^ e)%Z) by (apply Z.pow_pos_nonneg; lia).
  assert (Habs : (Z.abs z = Z.abs m * 10 ^ e)%Z).
  { rewrite Hval, Z.abs_mul. f_equal. lia. }
  rewrite toString_integer by (assumption || lia).
  destruct (digitsOf_filled m) as (c & rest & Hds & Hc).
  assert (Hbody : Js.allChars Js.isDigit
                    (Num.digitsOf m ++ Num.zeros (Z.to_nat e)) = true).
  { apply allChars_app; [apply digitsOf_digits|apply zeros_digits]. }
  assert (Hvalue : Num.digitsValue (Num.digitsOf m ++ Num.zeros (Z.to_nat e))
                   = Z.abs z).
  { rewrite digitsValue_app_zeros, digitsValue_digitsOf, Z2Nat.id by lia.
    now rewrite Habs. }
  assert (Hfilled : (Num.digitsOf m ++ Num.zeros (Z.to_nat e) =? EmptyString)
                    = false).
  { now rewrite Hds. }
  destruct (Z.ltb_spec m 0) as [Hneg|Hnonneg].
  - split.
    + unfold Num.isInteger. cbn [append Num.stripMinus].
      now rewrite Hbody, Hfilled.
    + unfold Num.parseInt. cbn [append Num.stripMinus].
      rewrite Hvalue. now replace (- Z.abs z)%Z with z by nia.
  - cbn [append]. split.
    + unfold Num.isInteger.
      now rewrite (stripMinus_digits _ Hbody), Hbody, Hfilled.
    + unfold Num.parseInt. rewrite (stripMinus_digits _ Hbody), Hvalue.
      now replace (Z.abs z) with z by nia.
Qed.

End IntegerText.





(** ** Flat mappings *)

Section FlatMappings.

Lemma trimStart_fixed (t : string) :
  Js.trim t = t -> Js.trimStart t = t.
Proof.
  intros H. destruct t as [|c rest]; [reflexivity|].
  destruct (trim_head (String c rest)) as [E|(c' & rest' & E & Hc)];
    rewrite H in E; [discriminate|].
  injection E as <- _. cbn [Js.trimStart]. now rewrite Hc.
Qed.

Lemma trimEnd_fixed (t : string) : Js.trim t = t -> Js.trimEnd t = t.
Proof.
  intros H. pose proof (trimStart_fixed t H) as Hs.
  unfold Js.trim in H. now rewrite Hs in H.
Qed.

Lemma trimEnd_app_fixed (a t : string) :
  t <> EmptyString -> Js.trimEnd t = t -> Js.trimEnd (a ++ t) = a ++ t.
Proof.
  intros Hne Ht. induction a as [|c a IH]; [assumption|].
  cbn [append Js.trimEnd]. rewrite IH.
  destruct (a ++ t) eqn:E; [|reflexivity].
  destruct a; cbn [append] in E; [contradiction|discriminate].
Qed.

(** A text that begins with a character that is no whitespace and ends
    with a trimmed text is trimmed. *)
Lemma trim_app_fixed (c : ascii) (a t : string) :
  Js.isSpace c = false -> t <> EmptyString -> Js.trim t = t ->
  Js.trim (String c a ++ t) = String c a ++ t.
Proof.
  intros Hc Hne Ht. unfold Js.trim. cbn [append Js.trimStart]. rewrite Hc.
  change (String c (a ++ t)) with (String c a ++ t).
  apply trimEnd_app_fixed; [assumption|now apply trimEnd_fixed].
Qed.

Lemma isCleanText_spec (t : string) :
  isCleanText t = true ->
  t <> EmptyString /\ Js.trim t = t /\ Js.allChars notLineTerminator t = true.
Proof.
  unfold isCleanText. intros H.
  apply andb_prop in H as [H Hlt]. apply andb_prop in H as [Hne Htrim].
  apply negb_true_iff, String.eqb_neq in Hne.
  apply String.eqb_eq in Htrim. auto.
Qed.

Lemma isPlainKey_spec (key : string) :
  isPlainKey key = true ->
  key <> EmptyString
  /\ Js.allChars (fun c => negb (Ascii.eqb c "*")) key = true
  /\ Js.allChars (fun c => negb (Ascii.eqb c "|")) key = true
  /\ Js.allChars notLineTerminator key = true.
Proof.
  unfold isPlainKey. intros H. apply andb_prop in H as [Hne H].
  apply negb_true_iff, String.eqb_neq in Hne. split; [assumption|].
  clear Hne. induction key as [|c key IH]; [auto|].
  cbn [Js.allChars] in *. apply andb_prop in H as [Hc H].
  apply andb_prop in Hc as [Hc Hlt]. apply andb_prop in Hc as [Hstar Hpipe].
  destruct (IH H) as (-> & -> & ->). now rewrite Hstar, Hpipe, Hlt.
Qed.

Lemma span_all (cls : ascii -> bool) (t : string) :
  Js.allChars cls t = true -> Js.span cls t = (t, EmptyString).
Proof.
  induction t as [|c t IH]; [reflexivity|].
  cbn [Js.allChars Js.span]. intros H. apply andb_prop in H as [-> H].
  now rewrite IH.
Qed.

(** [\s*(.+)] on a space followed by a clean text: the text. *)
Lemma matchValue_clean (t : string) :
  isCleanText t = true -> matchValue (String " " t) = Some t.
Proof.
  intros H. destruct (isCleanText_spec t H) as (Hne & Htrim & Hlt).
  destruct t as [|c rest]; [contradiction|].
  pose proof (trimStart_fixed _ Htrim) as Hs. cbn [Js.trimStart] in Hs.
  destruct (Js.isSpace c) eqn:Hc.
  { exfalso. destruct (trimStart_head rest) as [E|(c' & r' & E & _)];
      rewrite Hs in E; [discriminate|].
    apply (f_equal String.length) in Hs.
    assert (Hlen : forall s, String.length (Js.trimStart s) <= String.length s).
    { induction s as [|x s IHs]; [reflexivity|]. cbn [Js.trimStart].
      destruct (Js.isSpace x); cbn [String.length]; lia. }
    pose proof (Hlen rest). cbn [String.length] in Hs. lia. }
  unfold matchValue. cbn [Js.span]. change (Js.isSpace " ") with true.
  cbn [Js.span]. rewrite Hc. now rewrite (span_all _ _ Hlt).
Qed.

(** The lazy key on a plain key followed by the closing stars, the colon,
    a space and a clean text. *)
Lemma lazyKey_plain (key t : string) :
  forall acc,
    key <> EmptyString ->
    Js.allChars (fun c => negb (Ascii.eqb c "*")) key = true ->
    Js.allChars notLineTerminator key = true ->
    isCleanText t = true ->
    lazyKey acc (key ++ "**: " ++ t) = Some (acc ++ key, t).
Proof.
  induction key as [|c key IH]; intros acc Hne Hstar Hlt Ht; [contradiction|].
  cbn [Js.allChars] in Hstar, Hlt.
  apply andb_prop in Hstar as [Hc Hstar]. apply andb_prop in Hlt as [Hl Hlt].
  cbn [append lazyKey]. unfold notLineTerminator in Hl.
  apply negb_true_iff in Hl. rewrite Hl.
  destruct key as [|d key'].
  - cbn [append Js.startsWith Js.sliceFrom]. cbn [Ascii.eqb Bool.eqb andb].
    now rewrite matchValue_clean.
  - cbn [Js.allChars] in Hstar. apply andb_prop in Hstar as [Hd Hstar'].
    cbn [append Js.startsWith]. apply negb_true_iff in Hd.
    rewrite Ascii.eqb_sym, Hd. cbn [andb].
    change (String d (key' ++ "**: " ++ t))
      with (String d key' ++ "**: " ++ t).
    rewrite IH.
    + now rewrite append_assoc.
    + discriminate.
    + cbn [Js.allChars]. now rewrite Hd, Hstar'.
    + assumption.
    + assumption.
Qed.

Lemma includes_here (sub s : string) :
  Js.startsWith sub s = true -> Js.includes sub s = true.
Proof. intros H. destruct s; cbn [Js.includes]; now rewrite H. Qed.

Section Line.

Variables (key : string) (value : Json).
Hypothesis Hkey : isPlainKey key = true.
Hypothesis Hvalue : stableScalar value.

Let line : string := keyValueLine (key, value).
Let content : string := "**" ++ key ++ "**: " ++ scalarText value.

Lemma keyValueLine_bullet : Js.startsWith "- " line = true.
Proof. reflexivity. Qed.

Lemma keyValueLine_not_indented : Js.startsWith "  " line = false.
Proof. reflexivity. Qed.

Lemma keyValueLine_not_row : isPipeRow line = false.
Proof. reflexivity. Qed.

Lemma keyValueLine_content_trimmed : Js.trim content = content.
Proof.
  destruct Hvalue as (_ & Hclean & _).
  destruct (isCleanText_spec _ Hclean) as (Hne & Htrim & _).
  replace content
    with (String "*" (String "*" (key ++ "**: ")) ++ scalarText value).
  - apply (trim_app_fixed "*"); [reflexivity|assumption|assumption].
  - unfold content. cbn [append]. now rewrite append_assoc.
Qed.

Lemma keyValueLine_trimmed : Js.trim line = line.
Proof.
  destruct Hvalue as (_ & Hclean & _).
  destruct (isCleanText_spec _ Hclean) as (Hne & Htrim & _).
  replace line
    with (String "-" (" **" ++ key ++ "**: ") ++ scalarText value).
  - apply (trim_app_fixed "-"); [reflexivity|assumption|assumption].
  - unfold line, keyValueLine. cbn [append fst snd].
    now rewrite append_assoc.
Qed.

Lemma keyValueLine_single : singleLine line.
Proof.
  destruct Hvalue as (_ & Hclean & _).
  destruct (isCleanText_spec _ Hclean) as (_ & _ & Hlt).
  destruct (isPlainKey_spec _ Hkey) as (_ & _ & _ & Hklt).
  assert (Hweak : forall t, Js.allChars notLineTerminator t = true ->
                            Js.allChars (fun c => negb (Ascii.eqb c LF)) t
                            = true).
  { induction t as [|c t IH]; [reflexivity|]. cbn [Js.allChars].
    intros H. apply andb_prop in H as [Hc H]. rewrite (IH H).
    destruct (Ascii.eqb_spec c LF) as [->|_]; [discriminate Hc|reflexivity]. }
  unfold singleLine, line, keyValueLine. cbn [fst snd].
  repeat (apply allChars_app; [|]); try reflexivity; now apply Hweak.
Qed.

Lemma keyValueLine_content : Js.trim (Js.sliceFrom 2 line) = content.
Proof. exact keyValueLine_content_trimmed. Qed.

Lemma keyValueLine_stars : Js.includes "**" content = true.
Proof. now apply includes_here. Qed.

Lemma keyValueLine_colon : Js.includes ":" content = true.
Proof.
  unfold content. apply includes_app_r, includes_app_r.
  now apply includes_app_l.
Qed.

Lemma keyValueLine_match :
  matchKeyValue content = Some (key, scalarText value).
Proof.
  destruct Hvalue as (_ & Hclean & _).
  destruct (isPlainKey_spec _ Hkey) as (Hne & Hstar & _ & Hlt).
  unfold content.
  destruct key as [|c rest] eqn:E; [contradiction|]. rewrite <- E in *.
  assert (Hunfold : forall s, matchKeyValue ("**" ++ s)
                              = match lazyKey EmptyString s with
                                | Some groups => Some groups
                                | None => matchKeyValue (String "*" s)
                                end).
  { intros s. reflexivity. }
  rewrite Hunfold, lazyKey_plain by assumption. reflexivity.
Qed.

Lemma keyValueLine_value :
  parseCellValue (Js.trim (scalarText value)) = value.
Proof.
  destruct Hvalue as (_ & Hclean & Hread).
  destruct (isCleanText_spec _ Hclean) as (_ & -> & _). exact Hread.
Qed.

End Line.

Lemma objectAssign_fresh (source target : list (string * Json)) :
  NoDup (map fst target ++ map fst source)%list ->
  objectAssign target source = (target ++ source)%list.
Proof.
  unfold objectAssign. revert target.
  induction source as [|[k v] rest IH]; intros target H; cbn [fold_left].
  - now rewrite app_nil_r.
  - cbn [fst snd map] in *. rewrite setProp_fresh.
    + rewrite IH.
      * now rewrite <- app_assoc.
      * rewrite map_app. cbn [map fst]. now rewrite <- app_assoc.
    + apply NoDup_remove_2 in H. intros Hin. apply H.
      apply in_or_app. now left.
Qed.

(** The text of a mapping of plain keys to scalars: one line per entry. *)
Lemma jsonToMarkdown_flat (entries : list (string * Json)) :
  entries <> [] ->
  Forall (fun entry => isPlainKey (fst entry) = true
                       /\ stableScalar (snd entry)) entries ->
  jsonToMarkdown (JObj entries) noEncodeOptions
  = Js.join nl (map keyValueLine entries).
Proof.
  intros Hne H. unfold jsonToMarkdown. cbn [convertValue default noEncodeOptions
    headingLevel indentSize useNumberedLists arraysAsTables maxDepth].
  change (10 <? Z.of_nat 0)%Z with false. cbn iota.
  destruct entries as [|e es]; [congruence|]. cbn [length Nat.eqb].
  f_equal. apply map_ext_in. intros [k v] Hin.
  rewrite Forall_forall in H. destruct (H _ Hin) as [Hk (Hprim & _ & _)].
  cbn [fst snd] in *.
  destruct (isPlainKey_spec _ Hk) as (_ & _ & Hpipe & _).
  unfold entryLine, keyValueLine. cbn [fst snd].
  rewrite Hprim, (escapeMarkdown_pipe_free _ Hpipe).
  replace (convertValue v (0 + 1) 1 2 false false 10) with (scalarText v).
  - cbn [Nat.mul Js.repeatSpace append]. now rewrite append_assoc.
  - destruct v; try discriminate; reflexivity.
Qed.

(** Reading the lines of the entries from entry [length before] on. *)
Lemma parseContent_flat (after : list (string * Json)) :
  forall (before : list (string * Json)) (frames : nat) (errs : list string),
    after <> [] ->
    NoDup (map fst after) ->
    Forall (fun entry => isPlainKey (fst entry) = true
                         /\ stableScalar (snd entry)) after ->
    parseContent (length after + frames)
      (map keyValueLine (before ++ after)) (length before) true false errs
    = Returned (JObj after, length (before ++ after)) errs.
Proof.
  induction after as [|[k v] after IH]; intros before frames errs Hne Hnd H;
    [congruence|].
  inversion H as [|? ? [Hk Hv] Hrest]; subst. cbn [fst snd] in *.
  inversion Hnd as [|? ? Hfresh Hnd']; subst.
  cbn [length Nat.add parseContent].
  assert (Hline : forall i, lineAt (map keyValueLine (before ++ (k, v) :: after))
                              (length before + i)
                            = lineAt (map keyValueLine ((k, v) :: after)) i).
  { intros i. unfold lineAt. rewrite map_app, app_nth2; rewrite length_map;
      [|lia]. f_equal. lia. }
  pose proof (Hline 0) as Hline0. rewrite Nat.add_0_r in Hline0.
  rewrite length_map, length_app. cbn [length].
  destruct (Nat.leb_spec (length before + S (length after)) (length before));
    [lia|].
  rewrite Hline0. cbn [map lineAt nth].
  rewrite (keyValueLine_bullet k v), (keyValueLine_content k v Hv).
  rewrite (keyValueLine_stars k v), (keyValueLine_colon k v). cbn [andb].
  rewrite (keyValueLine_match k v Hk Hv), (keyValueLine_value v Hv).
  unfold bind at 1.
  destruct after as [|[k' v'] after'].
  - assert (Hlast : (length before + 1 <? length before + S (length (@nil (string * Json))))%nat
                    = false).
    { apply Nat.ltb_ge. cbn [length]. lia. }
    rewrite Hlast. cbn [andb]. unfold ret at 1. cbn [fst snd].
    rewrite Hlast. cbn [andb]. unfold ret.
    repeat f_equal; rewrite ?length_app; cbn [length]; lia.
  - inversion Hrest as [|? ? [Hk' Hv'] _]; subst. cbn [fst snd] in *.
    assert (Hnext : (length before + 1
                     <? length before + S (length ((k', v') :: after')))%nat
                    = true).
    { apply Nat.ltb_lt. cbn [length]. lia. }
    rewrite Hnext, (Hline 1). cbn [map lineAt nth].
    rewrite (keyValueLine_not_indented k' v'). cbn [andb].
    unfold ret at 1. cbn [fst snd].
    rewrite Hnext, (Hline 1). cbn [map lineAt nth].
    rewrite (keyValueLine_bullet k' v'). cbn [andb].
    specialize (IH (before ++ [(k, v)])%list frames errs).
    rewrite <- app_assoc, length_app in IH.
    cbn [app length Nat.add] in IH |- *.
    unfold bind. rewrite IH; [|discriminate|assumption|assumption].
    cbn [fst snd]. unfold ret. rewrite objectAssign_fresh.
    + repeat f_equal; rewrite ?length_app; cbn [length]; lia.
    + cbn [map fst app]. now constructor.
Qed.

End FlatMappings.

(** ** Words *)

Section Words.

Lemma letter_class (c : ascii) :
  isLetter c = true ->
  Js.isSpace c = false /\ Js.isDigit c = false
  /\ Js.isLineTerminator c = false
  /\ Ascii.eqb c "_" = false /\ Ascii.eqb c "-" = false
  /\ Ascii.eqb c "." = false /\ Ascii.eqb c "|" = false.
Proof.
  intros H.
  assert (Hcode : 65 <= Js.code c).
  { unfold isLetter, Js.isUpper, Js.isLower in H.
    apply orb_prop in H as [H|H]; apply andb_prop in H as [H _];
      apply Nat.leb_le in H; lia. }
  assert (Hne : forall d, Js.code d < 65 \/ Js.code d = 95 ->
                          Js.code d <> Js.code c \/ Js.code c = 95).
  { intros d [Hd|Hd]; lia. }
  assert (H95 : Js.code c <> 95).
  { unfold isLetter, Js.isUpper, Js.isLower in H.
    apply orb_prop in H as [H|H]; apply andb_prop in H as [H1 H2];
      apply Nat.leb_le in H1; apply Nat.leb_le in H2; lia. }
  repeat split.
  - unfold Js.isSpace.
    destruct (Nat.leb_spec 9 (Js.code c)), (Nat.leb_spec (Js.code c) 13),
      (Nat.eqb_spec (Js.code c) 32), (Nat.eqb_spec (Js.code c) 160);
      cbn; try lia; try reflexivity.
    exfalso. unfold isLetter, Js.isUpper, Js.isLower in H.
    apply orb_prop in H as [H|H]; apply andb_prop in H as [_ H];
      apply Nat.leb_le in H; lia.
  - unfold Js.isDigit.
    destruct (Nat.leb_spec 48 (Js.code c)), (Nat.leb_spec (Js.code c) 57);
      cbn; lia || reflexivity.
  - unfold Js.isLineTerminator.
    destruct (Nat.eqb_spec (Js.code c) 10), (Nat.eqb_spec (Js.code c) 13);
      cbn; lia || reflexivity.
  - destruct (Ascii.eqb_spec c "_") as [->|_]; [now elim H95|reflexivity].
  - destruct (Ascii.eqb_spec c "-") as [->|_]; [cbn in Hcode; lia|reflexivity].
  - destruct (Ascii.eqb_spec c ".") as [->|_]; [cbn in Hcode; lia|reflexivity].
  - destruct (Ascii.eqb_spec c "|") as [->|_]; [discriminate H|reflexivity].
Qed.

Lemma allChars_weaken (p q : ascii -> bool) (s : string) :
  (forall c, p c = true -> q c = true) ->
  Js.allChars p s = true -> Js.allChars q s = true.
Proof.
  intros Hpq. induction s as [|c s IH]; [reflexivity|].
  cbn [Js.allChars]. intros H. apply andb_prop in H as [Hc H].
  now rewrite (Hpq c Hc), IH.
Qed.

Lemma last_char (p : ascii -> bool) (s : string) :
  s <> EmptyString -> Js.allChars p s = true ->
  exists c, p c = true
            /\ substring (String.length s - 1) 1 s = String c EmptyString.
Proof.
  induction s as [|a s IH]; [congruence|]. intros _ H.
  cbn [Js.allChars] in H. apply andb_prop in H as [Ha Hs].
  destruct s as [|b s'].
  - exists a. now split.
  - destruct IH as (c & Hc & E); [discriminate|assumption|].
    exists c. split; [assumption|].
    cbn [String.length] in *.
    replace (S (String.length s') - 1) with (String.length s') in E by lia.
    replace (S (S (String.length s')) - 1) with (S (String.length s')) by lia.
    cbn [substring]. exact E.
Qed.

Lemma word_no_trailing_underscore (s : string) :
  s <> EmptyString -> Js.allChars isLetter s = true ->
  Js.endsWith "_" s = false.
Proof.
  intros Hne H. destruct (last_char isLetter s Hne H) as (c & Hc & E).
  unfold Js.endsWith. cbn [String.length]. rewrite E.
  destruct (letter_class c Hc) as (_ & _ & _ & Hu & _).
  cbn [String.eqb]. rewrite Hu. apply andb_false_r.
Qed.

Lemma word_stable (s : string) :
  isWordText s = true -> stableScalar (JStr s).
Proof.
  unfold isWordText. intros H.
  apply andb_prop in H as [H Hfalse]. apply andb_prop in H as [H Htrue].
  apply andb_prop in H as [H Hnull]. apply andb_prop in H as [Hne Hletters].
  apply negb_true_iff in Hne, Hnull, Htrue, Hfalse.
  assert (Hfilled : s <> EmptyString) by now apply String.eqb_neq.
  assert (Hpipe : escapeMarkdown s = s).
  { apply escapeMarkdown_pipe_free.
    apply (allChars_weaken isLetter); [|assumption].
    intros c Hc. destruct (letter_class c Hc) as (_ & _ & _ & _ & _ & _ & ->).
    reflexivity. }
  assert (Htrim : Js.trim s = s).
  { apply trim_clean. apply (allChars_weaken isLetter); [|assumption].
    intros c Hc. destruct (letter_class c Hc) as (-> & _). reflexivity. }
  assert (Hlt : Js.allChars notLineTerminator s = true).
  { apply (allChars_weaken isLetter); [|assumption].
    intros c Hc. unfold notLineTerminator.
    destruct (letter_class c Hc) as (_ & _ & -> & _). reflexivity. }
  split; [reflexivity|]. cbn [scalarText]. rewrite Hpipe. split.
  - unfold isCleanText. now rewrite Hne, Htrim, String.eqb_refl, Hlt.
  - destruct s as [|c rest]; [congruence|].
    pose proof Hletters as Hall. cbn [Js.allChars] in Hletters.
    apply andb_prop in Hletters as [Hc _].
    destruct (letter_class c Hc) as (_ & Hdigit & _ & Hu & Hminus & Hdot & _).
    unfold parseCellValue. rewrite Htrim, Hne, Hnull, Htrue, Hfalse.
    assert (Hunder : String.eqb (String c rest) "_null_" = false).
    { cbn [String.eqb]. now rewrite Hu. }
    rewrite Hunder. cbn [orb].
    assert (Hint : Num.isInteger (String c rest) = false).
    { unfold Num.isInteger. rewrite stripMinus_spec, Hminus.
      cbn [Js.allChars]. rewrite Hdigit. apply andb_false_r. }
    assert (Hdec : Num.isDecimal (String c rest) = false).
    { unfold Num.isDecimal. rewrite stripMinus_spec, Hminus.
      cbn [Js.span]. rewrite Hdigit.
      destruct c as [[] [] [] [] [] [] [] []]; try reflexivity.
      discriminate Hdot. }
    rewrite Hint, Hdec. cbn [Js.startsWith]. rewrite Ascii.eqb_sym, Hu.
    cbn [andb]. unfold stripUnderscores.
    replace (match String c rest with
             | String "_" rest0 => rest0
             | _ => String c rest
             end) with (String c rest).
    + now rewrite (word_no_trailing_underscore _ Hfilled Hall).
    + destruct c as [[] [] [] [] [] [] [] []]; try reflexivity.
      discriminate Hu.
Qed.

End Words.

(** ** Decimals as text *)

Section DecimalText.

Lemma substring_sliceFrom (n : nat) (s : string) :
  substring 0 n s ++ Js.sliceFrom n s = s.
Proof.
  revert s. induction n as [|n IH]; intros s.
  - destruct s; reflexivity.
  - destruct s as [|c s]; [reflexivity|].
    cbn [substring Js.sliceFrom append]. now rewrite IH.
Qed.

Lemma substring_chars (p : ascii -> bool) (n : nat) (s : string) :
  Js.allChars p s = true -> Js.allChars p (substring 0 n s) = true.
Proof.
  revert s. induction n as [|n IH]; intros s H.
  - destruct s; reflexivity.
  - destruct s as [|c s]; [reflexivity|].
    cbn [Js.allChars] in H. apply andb_prop in H as [Hc H].
    cbn [substring Js.allChars]. now rewrite Hc, IH.
Qed.

Lemma sliceFrom_chars (p : ascii -> bool) (n : nat) (s : string) :
  Js.allChars p s = true -> Js.allChars p (Js.sliceFrom n s) = true.
Proof.
  revert s. induction n as [|n IH]; intros s H; [assumption|].
  destruct s as [|c s]; [reflexivity|].
  cbn [Js.allChars] in H. apply andb_prop in H as [_ H].
  cbn [Js.sliceFrom]. now apply IH.
Qed.

Lemma sliceFrom_length (n : nat) (s : string) :
  String.length (Js.sliceFrom n s) = String.length s - n.
Proof.
  revert s. induction n as [|n IH]; intros s.
  - cbn [Js.sliceFrom]. lia.
  - destruct s as [|c s]; [reflexivity|].
    cbn [Js.sliceFrom String.length]. now rewrite IH.
Qed.

Lemma append_length (a b : string) :
  String.length (a ++ b) = String.length a + String.length b.
Proof.
  induction a as [|c a IH]; [reflexivity|].
  cbn [append String.length]. now rewrite IH.
Qed.

Lemma zeros_length (n : nat) : String.length (Num.zeros n) = n.
Proof. induction n as [|n IH]; [reflexivity|]. cbn. now rewrite IH. Qed.

Lemma span_stop (cls : ascii -> bool) (a : string) (c : ascii) (rest : string) :
  Js.allChars cls a = true -> cls c = false ->
  Js.span cls (a ++ String c rest) = (a, String c rest).
Proof.
  intros Ha Hc. induction a as [|x a IH].
  - cbn [append Js.span]. now rewrite Hc.
  - cbn [Js.allChars] in Ha. apply andb_prop in Ha as [Hx Ha].
    cbn [append Js.span]. now rewrite Hx, IH.
Qed.

Lemma digitsValue_zeros_app (n : nat) (ds : string) :
  Num.digitsValue (Num.zeros n ++ ds) = Num.digitsValue ds.
Proof.
  unfold Num.digitsValue. rewrite list_ascii_app, fold_left_app, fold_zeros.
  reflexivity.
Qed.

Lemma stripZeros_normal (fuel : nat) (m e : Z) :
  m <> 0%Z -> (m mod 10 <> 0)%Z -> Num.stripZeros (S fuel) m e = (m, e).
Proof.
  intros Hm Hmod. cbn [Num.stripZeros].
  destruct (Z.eqb_spec m 0); [contradiction|].
  now destruct (Z.eqb_spec (m mod 10) 0).
Qed.

Lemma normalize_opp (m e : Z) :
  m <> 0%Z -> (m mod 10 <> 0)%Z ->
  Num.normalize m e = Finite m e.
Proof.
  intros Hm Hmod. unfold Num.normalize. now rewrite stripZeros_normal.
Qed.

(** The body of a decimal text: digits, a point, digits. *)
Lemma decimal_body (int frac : string) :
  Js.allChars Js.isDigit int = true ->
  Js.allChars Js.isDigit frac = true ->
  frac <> EmptyString ->
  int <> EmptyString ->
  let body := int ++ "." ++ frac in
  Num.isDecimal body = true
  /\ Num.isDecimal ("-" ++ body) = true
  /\ Num.parseFloat body
     = Num.normalize (Num.digitsValue (int ++ frac))
         (- Z.of_nat (String.length frac))
  /\ Num.parseFloat ("-" ++ body)
     = Num.normalize (- Num.digitsValue (int ++ frac))
         (- Z.of_nat (String.length frac)).
Proof.
  intros Hint Hfrac Hne Hint_ne. cbv zeta.
  assert (Hspan : Js.span Js.isDigit (int ++ "." ++ frac)
                  = (int, String "." frac)).
  { now apply span_stop. }
  assert (Hminus : Num.stripMinus (int ++ "." ++ frac)
                   = (false, int ++ "." ++ frac)).
  { destruct int as [|c int']; [congruence|].
    cbn [Js.allChars] in Hint. apply andb_prop in Hint as [Hc _].
    cbn [append]. rewrite stripMinus_spec.
    destruct (Ascii.eqb_spec c "-") as [->|_]; [discriminate Hc|reflexivity]. }
  assert (Hfilled : (frac =? EmptyString) = false) by now apply String.eqb_neq.
  unfold Num.isDecimal, Num.parseFloat. cbn [append Num.stripMinus].
  change (String "." frac) with ("." ++ frac).
  rewrite Hminus, Hspan. cbn [Js.sliceFrom]. rewrite Hfilled, Hfrac.
  repeat split.
Qed.


Lemma span_parts (cls : ascii -> bool) (s : string) :
  s = fst (Js.span cls s) ++ snd (Js.span cls s)
  /\ Js.allChars cls (fst (Js.span cls s)) = true.
Proof.
  induction s as [|c s IH]; [now split|].
  cbn [Js.span]. destruct (cls c) eqn:Hc; [|now split].
  destruct (Js.span cls s) as [a b]. cbn [fst snd] in *.
  destruct IH as [E Ha]. split.
  - cbn [append]. now rewrite <- E.
  - cbn [Js.allChars]. now rewrite Hc, Ha.
Qed.

Lemma isDecimal_chars (p : ascii -> bool) (t : string) :
  p "-"%char = true -> p "."%char = true ->
  (forall c, Js.isDigit c = true -> p c = true) ->
  Num.isDecimal t = true -> Js.allChars p t = true.
Proof.
  intros Hminus Hdot Hdigit.
  assert (Hall : forall s, Js.allChars Js.isDigit s = true ->
                           Js.allChars p s = true).
  { intros s. now apply allChars_weaken. }
  assert (Hbody : forall body,
             (let (_, rest) := Js.span Js.isDigit body in
              match rest with
              | String "." frac =>
                  negb (frac =? EmptyString) && Js.allChars Js.isDigit frac
              | _ => false
              end) = true ->
             Js.allChars p body = true).
  { intros body H. destruct (span_parts Js.isDigit body) as [E Hint].
    destruct (Js.span Js.isDigit body) as [int rest]. cbn [fst snd] in *.
    destruct rest as [|c frac]; [discriminate|].
    destruct (Ascii.eqb_spec c ".") as [->|Hc].
    - apply andb_prop in H as [_ H]. rewrite E.
      apply allChars_app; [now apply Hall|].
      cbn [Js.allChars]. now rewrite Hdot, Hall.
    - destruct c as [[] [] [] [] [] [] [] []]; try discriminate H.
      now elim Hc. }
  unfold Num.isDecimal. destruct t as [|c rest].
  - cbn. discriminate.
  - rewrite stripMinus_spec. destruct (Ascii.eqb_spec c "-") as [->|_].
    + intros H. cbn [Js.allChars]. rewrite Hminus. now apply Hbody.
    + apply Hbody.
Qed.

Lemma isDecimal_not_integer (t : string) :
  Num.isDecimal t = true -> Num.isInteger t = false.
Proof.
  unfold Num.isDecimal, Num.isInteger.
  destruct (Num.stripMinus t) as [neg body].
  destruct (Js.allChars Js.isDigit body) eqn:Hd; [|intros _; apply andb_false_r].
  rewrite (span_all _ _ Hd). discriminate.
Qed.

(** A text that satisfies the decimal pattern is read as a number. *)
Lemma parseCellValue_decimal (t : string) :
  Num.isDecimal t = true -> parseCellValue t = JNum (Num.parseFloat t).
Proof.
  intros H. unfold parseCellValue.
  assert (Hclean : Js.trim t = t).
  { apply trim_clean.
    apply (isDecimal_chars (fun c => negb (Js.isSpace c)));
      [reflexivity|reflexivity| |assumption].
    intros c Hc. now rewrite (digit_not_space c Hc). }
  rewrite Hclean.
  destruct (String.eqb_spec t "_null_") as [E|_]; [now rewrite E in H|].
  destruct (String.eqb_spec t "null") as [E|_]; [now rewrite E in H|].
  destruct (String.eqb_spec t EmptyString) as [E|_]; [now rewrite E in H|].
  destruct (String.eqb_spec t "true") as [E|_]; [now rewrite E in H|].
  destruct (String.eqb_spec t "false") as [E|_]; [now rewrite E in H|].
  cbn [orb]. now rewrite (isDecimal_not_integer t H), H.
Qed.

(** The text of a decimal in normal form that prints without exponent
    satisfies the decimal pattern, and [parseFloat] reads the decimal back
    from it. *)
Lemma decimal_text (m e : Z) :
  m <> 0%Z -> (m mod 10 <> 0)%Z -> (e < 0)%Z ->
  (-6 < Z.of_nat (String.length (Num.digitsOf m)) + e <= 21)%Z ->
  Num.isDecimal (Num.toString (Finite m e)) = true
  /\ Num.parseFloat (Num.toString (Finite m e)) = Finite m e.
Proof.
  intros Hm Hmod He Hn. cbn [Num.toString].
  destruct (Z.eqb_spec m 0) as [|_]; [contradiction|].
  destruct (digitsOf_filled m) as (c & rest & Hds & Hc).
  pose proof (digitsOf_digits m) as Hdigits.
  pose proof (digitsValue_digitsOf m) as Hvalue.
  set (ds := Num.digitsOf m) in *.
  set (k := Z.of_nat (String.length ds)) in *.
  assert (Hk : (1 <= k)%Z).
  { unfold k. rewrite Hds. cbn [String.length]. lia. }
  assert (Hparts :
            exists int frac,
              Num.positiveToString ds (k + e) = int ++ "." ++ frac
              /\ Js.allChars Js.isDigit int = true
              /\ Js.allChars Js.isDigit frac = true
              /\ frac <> EmptyString /\ int <> EmptyString
              /\ Num.digitsValue (int ++ frac) = Z.abs m
              /\ Z.of_nat (String.length frac) = (- e)%Z).
  { unfold Num.positiveToString. fold k.
    destruct (Z.leb_spec k (k + e)); [lia|]. cbn [andb].
    destruct (Z.ltb_spec 0 (k + e)) as [Hpos|Hneg].
    - destruct (Z.leb_spec (k + e) 21); [|lia]. cbn [andb].
      exists (substring 0 (Z.to_nat (k + e)) ds),
             (Js.sliceFrom (Z.to_nat (k + e)) ds).
      assert (Hlen : Z.of_nat (String.length
                                 (Js.sliceFrom (Z.to_nat (k + e)) ds))
                     = (- e)%Z).
      { rewrite sliceFrom_length. unfold k in *. lia. }
      repeat split.
      + now apply substring_chars.
      + now apply sliceFrom_chars.
      + intros E. rewrite E in Hlen. cbn in Hlen. lia.
      + rewrite Hds. destruct (Z.to_nat (k + e)) eqn:En; [lia|discriminate].
      + now rewrite substring_sliceFrom.
      + exact Hlen.
    - cbn [andb].
      destruct (Z.ltb_spec (-6) (k + e)); [|lia].
      destruct (Z.leb_spec (k + e) 0); [|lia]. cbn [andb].
      exists "0", (Num.zeros (Z.to_nat (- (k + e))) ++ ds).
      repeat split.
      + apply allChars_app; [apply zeros_digits|assumption].
      + rewrite Hds. destruct (Num.zeros _); discriminate.
      + discriminate.
      + change ("0" ++ Num.zeros (Z.to_nat (- (k + e))) ++ ds)
          with (Num.zeros (S (Z.to_nat (- (k + e)))) ++ ds).
        now rewrite digitsValue_zeros_app.
      + rewrite append_length, zeros_length. unfold k in *. lia. }
  destruct Hparts as (int & frac & -> & Hint & Hfrac & Hfne & Hine & Hval & Hlen).
  destruct (decimal_body int frac Hint Hfrac Hfne Hine)
    as (Hd & Hdneg & Hp & Hpneg).
  rewrite Hval, Hlen in Hp, Hpneg. rewrite Z.opp_involutive in Hp, Hpneg.
  destruct (Z.ltb_spec m 0).
  - split; [exact Hdneg|]. rewrite Hpneg.
    replace (- Z.abs m)%Z with m by lia. now apply normalize_opp.
  - split; [exact Hd|]. rewrite Hp.
    replace (Z.abs m) with m by lia. now apply normalize_opp.
Qed.

Lemma decimal_stable (m e : Z) :
  m <> 0%Z -> (m mod 10 <> 0)%Z -> (e < 0)%Z ->
  (-6 < Z.of_nat (String.length (Num.digitsOf m)) + e <= 21)%Z ->
  stableScalar (JNum (Finite m e)).
Proof.
  intros Hm Hmod He Hn.
  destruct (decimal_text m e Hm Hmod He Hn) as [Hdec Hparse].
  split; [reflexivity|]. cbn [scalarText stringOf]. split.
  - unfold isCleanText.
    assert (Htrim : Js.trim (Num.toString (Finite m e))
                    = Num.toString (Finite m e)).
    { apply trim_clean.
      apply (isDecimal_chars (fun c => negb (Js.isSpace c)));
        [reflexivity|reflexivity| |assumption].
      intros c Hc. now rewrite (digit_not_space c Hc). }
    assert (Hlt : Js.allChars notLineTerminator (Num.toString (Finite m e))
                  = true).
    { apply isDecimal_chars; [reflexivity|reflexivity| |assumption].
      intros c Hc. unfold notLineTerminator, Js.isLineTerminator.
      unfold Js.isDigit in Hc. apply andb_prop in Hc as [H1 H2].
      apply Nat.leb_le in H1.
      destruct (Nat.eqb_spec (Js.code c) 10), (Nat.eqb_spec (Js.code c) 13);
        cbn; lia || reflexivity. }
    rewrite Htrim, String.eqb_refl, Hlt.
    destruct (Num.toString (Finite m e)); [discriminate Hdec|reflexivity].
  - now rewrite parseCellValue_decimal, Hparse.
Qed.

End DecimalText.



Section FlatRoundTrip.

Lemma find_none_all (lines : list string) :
  Forall (fun line => isPipeRow line = false) lines ->
  find isPipeRow lines = None.
Proof.
  induction 1 as [|line lines Hline _ IH]; [reflexivity|].
  cbn [find]. now rewrite Hline.
Qed.

Lemma isTable_no_row (lines : list string) :
  Forall (fun line => isPipeRow line = false) lines -> isTable lines = false.
Proof.
  intros H. unfold isTable. rewrite (find_none_all lines H).
  now destruct (length lines <? 2)%nat.
Qed.

Lemma isInteger_chars (p : ascii -> bool) (t : string) :
  p "-"%char = true ->
  (forall c, Js.isDigit c = true -> p c = true) ->
  Num.isInteger t = true -> Js.allChars p t = true.
Proof.
  intros Hminus Hdigit. unfold Num.isInteger.
  destruct t as [|c rest]; [discriminate|].
  assert (Hall : forall s, Js.allChars Js.isDigit s = true ->
                           Js.allChars p s = true).
  { induction s as [|d s IH]; [reflexivity|]. cbn [Js.allChars].
    intros H. apply andb_prop in H as [Hd H]. now rewrite (Hdigit d Hd), IH. }
  rewrite stripMinus_spec. destruct (Ascii.eqb_spec c "-") as [->|_];
    intros H; apply andb_prop in H as [_ H].
  - cbn [Js.allChars]. now rewrite Hminus, Hall.
  - now apply Hall.
Qed.

Lemma integer_stable (z : Z) : (Z.abs z < 10 ^ 21)%Z -> stableScalar (num z).
Proof.
  intros Hbound. destruct (integer_text z Hbound) as [Hint Hparse].
  assert (Hlt : Js.allChars notLineTerminator (stringOf (num z)) = true).
  { apply isInteger_chars; [reflexivity| |exact Hint].
    intros c Hc. unfold notLineTerminator, Js.isLineTerminator.
    unfold Js.isDigit in Hc. apply andb_prop in Hc as [H1 H2].
    apply Nat.leb_le in H1.
    destruct (Nat.eqb_spec (Js.code c) 10), (Nat.eqb_spec (Js.code c) 13);
      cbn; lia || reflexivity. }
  split; [reflexivity|]. split.
  - unfold isCleanText. change (scalarText (num z)) with (stringOf (num z)).
    rewrite (trim_clean _ (isInteger_clean _ Hint)), String.eqb_refl, Hlt.
    destruct (stringOf (num z)); [discriminate Hint|reflexivity].
  - change (scalarText (num z)) with (stringOf (num z)).
    now rewrite parseCellValue_integer, Hparse.
Qed.

End FlatRoundTrip.





(** ** Tables, both ways *)

Section TableText.

Lemma split_piece (sep : ascii) (a rest : string) :
  Js.allChars (fun c => negb (Ascii.eqb c sep)) a = true ->
  Js.split sep (a ++ String sep rest) = a :: Js.split sep rest.
Proof.
  induction a as [|c a IH]; intros H.
  - cbn [append Js.split]. now rewrite Ascii.eqb_refl.
  - cbn [Js.allChars] in H. apply andb_prop in H as [Hc Ha].
    apply negb_true_iff in Hc.
    cbn [append Js.split]. now rewrite Hc, (IH Ha).
Qed.

Lemma substring_whole (s : string) : substring 0 (String.length s) s = s.
Proof.
  induction s as [|c s IH]; [reflexivity|].
  cbn [String.length substring]. now rewrite IH.
Qed.

Lemma substring_app_end (a p : string) :
  substring (String.length a) (String.length p) (a ++ p) = p.
Proof.
  induction a as [|c a IH]; [apply substring_whole|].
  cbn [String.length append substring]. exact IH.
Qed.

Lemma endsWith_app (a p : string) : Js.endsWith p (a ++ p) = true.
Proof.
  unfold Js.endsWith. rewrite append_length.
  replace (String.length a + String.length p - String.length p)
    with (String.length a) by lia.
  rewrite substring_app_end, String.eqb_refl.
  destruct (Nat.leb_spec (String.length p) (String.length a + String.length p));
    [reflexivity|lia].
Qed.

Lemma allChars_join (p : ascii -> bool) (sep : string) (parts : list string) :
  Js.allChars p sep = true ->
  Forall (fun part => Js.allChars p part = true) parts ->
  Js.allChars p (Js.join sep parts) = true.
Proof.
  intros Hsep H. unfold Js.join.
  induction H as [|part parts Hpart Hparts IH]; [reflexivity|].
  destruct parts as [|q parts']; [assumption|].
  cbn [String.concat]. apply allChars_app; [assumption|].
  now apply allChars_app.
Qed.

Lemma tableLine_row (cells : list string) : isPipeRow (tableLine cells) = true.
Proof.
  unfold isPipeRow, tableLine. apply andb_true_intro. split; [reflexivity|].
  replace ("| " ++ Js.join " | " cells ++ " |")
    with (("| " ++ Js.join " | " cells ++ " ") ++ "|").
  - apply endsWith_app.
  - cbn [append]. now rewrite append_assoc.
Qed.


Lemma tableLine_trimmed (cells : list string) :
  Js.trim (tableLine cells) = tableLine cells.
Proof.
  unfold tableLine.
  replace ("| " ++ Js.join " | " cells ++ " |")
    with (String "|" (" " ++ Js.join " | " cells ++ " ") ++ "|").
  - apply (trim_app_fixed "|"); [reflexivity|discriminate|reflexivity].
  - cbn [append]. now rewrite append_assoc.
Qed.

Lemma isCleanCell_spec (t : string) :
  isCleanCell t = true ->
  t <> EmptyString /\ Js.trim t = t
  /\ Js.allChars (fun c => negb (Ascii.eqb c "|")) t = true
  /\ Js.allChars (fun c => negb (Ascii.eqb c LF)) t = true.
Proof.
  unfold isCleanCell. intros H.
  apply andb_prop in H as [H Hchars]. apply andb_prop in H as [Hne Htrim].
  apply negb_true_iff, String.eqb_neq in Hne.
  apply String.eqb_eq in Htrim. repeat split; try assumption.
  - apply (allChars_weaken _ _ _ (fun c Hc => proj1 (andb_prop _ _ Hc)) Hchars).
  - apply (allChars_weaken _ _ _ (fun c Hc => proj2 (andb_prop _ _ Hc)) Hchars).
Qed.

Lemma tableLine_single (cells : list string) :
  Forall (fun cell => isCleanCell cell = true) cells ->
  singleLine (tableLine cells).
Proof.
  intros H. unfold singleLine, tableLine.
  apply allChars_app; [reflexivity|].
  apply allChars_app; [|reflexivity].
  apply allChars_join; [reflexivity|].
  eapply Forall_impl; [|exact H]. intros cell Hcell.
  now destruct (isCleanCell_spec cell Hcell) as (_ & _ & _ & ?).
Qed.

Lemma join_cons (sep x y : string) (l : list string) :
  Js.join sep (x :: y :: l) = x ++ sep ++ Js.join sep (y :: l).
Proof. reflexivity. Qed.

(** The pieces of a table line between its pipes. *)
Lemma split_cells (cells : list string) :
  cells <> [] ->
  Forall (fun cell => isCleanCell cell = true) cells ->
  Js.split "|" (" " ++ Js.join " | " cells ++ " |")
  = (map (fun cell => (" " ++ cell ++ " ")%string) cells
     ++ [EmptyString])%list.
Proof.
  intros Hne H. induction H as [|cell cells Hcell Hcells IH]; [congruence|].
  destruct (isCleanCell_spec cell Hcell) as (_ & _ & Hpipe & _).
  assert (Hpad : Js.allChars (fun c => negb (Ascii.eqb c "|"))
                   (" " ++ cell ++ " ") = true).
  { apply allChars_app; [reflexivity|]. now apply allChars_app. }
  destruct cells as [|next cells'].
  - cbn [Js.join String.concat map app].
    replace (" " ++ cell ++ " |") with ((" " ++ cell ++ " ") ++ "|").
    + now rewrite split_piece.
    + cbn [append]. now rewrite append_assoc.
  - rewrite join_cons.
    cbn [map app].
    replace (" " ++ (cell ++ " | " ++ Js.join " | " (next :: cells'))
                 ++ " |")
      with ((" " ++ cell ++ " ")
              ++ String "|" (" " ++ Js.join " | " (next :: cells') ++ " |")).
    + rewrite split_piece by assumption. f_equal. apply IH. discriminate.
    + cbn [append]. rewrite !append_assoc. cbn [append]. reflexivity.
Qed.

Lemma split_tableLine (cells : list string) :
  cells <> [] ->
  Forall (fun cell => isCleanCell cell = true) cells ->
  map Js.trim (Js.split "|" (tableLine cells))
  = (EmptyString :: cells ++ [EmptyString])%list.
Proof.
  intros Hne H. unfold tableLine.
  change ("| " ++ Js.join " | " cells ++ " |")
    with (EmptyString ++ String "|" (" " ++ Js.join " | " cells ++ " |")).
  rewrite split_piece by reflexivity. rewrite split_cells by assumption.
  cbn [map]. rewrite map_app, map_map. cbn [map]. f_equal. f_equal.
  clear Hne. induction H as [|cell cells Hcell _ IH]; [reflexivity|].
  cbn [map]. rewrite IH. f_equal.
  destruct (isCleanCell_spec cell Hcell) as (_ & Htrim & _).
  rewrite <- Htrim at 2. now apply padding_sameContent.
Qed.

Lemma filter_filled (cells : list string) :
  Forall (fun cell => isCleanCell cell = true) cells ->
  filter (fun h => (0 <? String.length h)%nat) cells = cells.
Proof.
  induction 1 as [|cell cells Hcell _ IH]; [reflexivity|].
  destruct (isCleanCell_spec cell Hcell) as (Hne & _).
  cbn [filter]. rewrite IH.
  destruct cell; [congruence|reflexivity].
Qed.

Lemma tableHeaders_line (keys : list string) :
  keys <> [] ->
  Forall (fun key => isCleanCell key = true) keys ->
  tableHeaders (tableLine keys) false = keys.
Proof.
  intros Hne H. unfold tableHeaders. rewrite split_tableLine by assumption.
  rewrite map_id. cbn [filter String.length Nat.ltb Nat.leb].
  rewrite filter_app. cbn [filter String.length Nat.ltb Nat.leb].
  rewrite app_nil_r. now apply filter_filled.
Qed.

Lemma filteriFrom_drop_last (A : Type) (n : nat) (l : list A) (x : A) :
  forall start,
    1 <= start -> start + length l = n + 1 ->
    filteriFrom (fun idx => (0 <? idx)%nat && (idx <=? n)%nat) start
                (l ++ [x])%list = l.
Proof.
  induction l as [|y l IH]; intros start Hstart Hlen; cbn [length] in Hlen.
  - cbn [app filteriFrom].
    destruct (Nat.leb_spec start n); [lia|]. now rewrite andb_false_r.
  - cbn [app filteriFrom].
    destruct (Nat.ltb_spec 0 start); [|lia].
    destruct (Nat.leb_spec start n); [|lia].
    cbn [andb]. f_equal. apply IH; lia.
Qed.

Lemma rowCells_line (cells headers : list string) :
  cells <> [] -> length cells = length headers ->
  Forall (fun cell => isCleanCell cell = true) cells ->
  rowCells (tableLine cells) headers = cells.
Proof.
  intros Hne Hlen H. unfold rowCells. rewrite split_tableLine by assumption.
  cbn [filteriFrom Nat.ltb Nat.leb andb].
  apply filteriFrom_drop_last; lia.
Qed.

Lemma split_tableLine_length (cells : list string) :
  cells <> [] ->
  Forall (fun cell => isCleanCell cell = true) cells ->
  length (Js.split "|" (tableLine cells)) = length cells + 2.
Proof.
  intros Hne H.
  rewrite <- (length_map Js.trim), split_tableLine by assumption.
  cbn [length]. rewrite length_app. cbn [length]. lia.
Qed.

End TableText.

Section TableRoundTrip.

Lemma addKeys_fresh (keys : list string) :
  forall acc, NoDup (acc ++ keys)%list ->
              fold_left addKey keys acc = (acc ++ keys)%list.
Proof.
  induction keys as [|k keys IH]; intros acc H; cbn [fold_left].
  - now rewrite app_nil_r.
  - assert (Hk : existsb (String.eqb k) acc = false).
    { destruct (existsb (String.eqb k) acc) eqn:E; [|reflexivity].
      apply existsb_eqb_In in E. apply NoDup_remove_2 in H.
      elim H. apply in_or_app. now left. }
    unfold addKey at 2. rewrite Hk. rewrite IH.
    + now rewrite <- app_assoc.
    + now rewrite <- app_assoc.
Qed.

Lemma addKeys_present (keys acc : list string) :
  (forall k, In k keys -> In k acc) -> fold_left addKey keys acc = acc.
Proof.
  induction keys as [|k keys IH]; intros H; [reflexivity|].
  cbn [fold_left]. unfold addKey at 2.
  assert (Hk : existsb (String.eqb k) acc = true).
  { apply existsb_eqb_In, H. now left. }
  rewrite Hk. apply IH. intros k' Hk'. apply H. now right.
Qed.

Lemma combine_keys (keys : list string) :
  forall vals : list Json,
    length vals = length keys -> map fst (combine keys vals) = keys.
Proof.
  induction keys as [|k keys IH]; intros vals H; [reflexivity|].
  destruct vals as [|v vals]; [discriminate|].
  cbn [combine map fst]. f_equal. apply IH. now injection H.
Qed.

Lemma tableKeys_more (keys : list string) (rows : list (list Json)) :
  Forall (fun vals => length vals = length keys) rows ->
  fold_left (fun allKeys obj => fold_left addKey (objectKeys obj) allKeys)
    (map (fun vals => JObj (combine keys vals)) rows) keys
  = keys.
Proof.
  induction 1 as [|vals rows Hvals _ IH]; [reflexivity|].
  cbn [map fold_left objectKeys]. rewrite combine_keys by assumption.
  now rewrite addKeys_present by trivial.
Qed.

Lemma tableKeys_of (keys : list string) (rows : list (list Json)) :
  rows <> [] -> NoDup keys ->
  Forall (fun vals => length vals = length keys) rows ->
  tableKeys (map (fun vals => JObj (combine keys vals)) rows) = keys.
Proof.
  intros Hne Hnodup H. unfold tableKeys.
  destruct rows as [|vals rows]; [congruence|].
  inversion H as [|? ? Hvals Hrows]; subst.
  cbn [map fold_left objectKeys]. rewrite combine_keys by assumption.
  rewrite addKeys_fresh by assumption. cbn [app].
  now apply tableKeys_more.
Qed.

Lemma getProp_combine (keys : list string) :
  forall vals : list Json,
    NoDup keys -> length vals = length keys ->
    map (fun key => getProp (JObj (combine keys vals)) key) keys = vals.
Proof.
  induction keys as [|k keys IH]; intros vals Hnodup Hlen.
  - destruct vals; [reflexivity|discriminate].
  - destruct vals as [|v vals]; [discriminate|].
    inversion Hnodup as [|? ? Hk Hkeys]; subst.
    cbn [combine map getProp find fst snd]. rewrite String.eqb_refl.
    f_equal.
    transitivity (map (fun key => getProp (JObj (combine keys vals)) key) keys).
    + apply map_ext_in. intros key Hkey. cbn [getProp find fst snd].
      destruct (String.eqb_spec k key) as [->|_]; [contradiction|reflexivity].
    + apply IH; [assumption|now injection Hlen].
Qed.

Lemma escapeMarkdown_cells (cells : list string) :
  Forall (fun cell => isCleanCell cell = true) cells ->
  map escapeMarkdown cells = cells.
Proof.
  induction 1 as [|cell cells Hcell _ IH]; [reflexivity|].
  destruct (isCleanCell_spec cell Hcell) as (_ & _ & Hpipe & _).
  cbn [map]. now rewrite IH, escapeMarkdown_pipe_free.
Qed.

(** The lines of the table the encoder writes for [tableOf keys rows]. *)
Lemma jsonToMarkdown_table (keys : list string) (rows : list (list Json)) :
  keys <> [] -> rows <> [] -> NoDup keys ->
  Forall (fun key => isCleanCell key = true) keys ->
  Forall (fun vals => length vals = length keys) rows ->
  jsonToMarkdown (tableOf keys rows) tablesOn
  = Js.join nl
      (tableLine keys
       :: tableLine (map (fun _ => "---") keys)
       :: map (fun vals => tableLine (map cellValue vals)) rows).
Proof.
  intros Hkeys Hrows Hnodup Hclean Hlen.
  unfold jsonToMarkdown, tableOf.
  cbn [convertValue default tablesOn headingLevel indentSize useNumberedLists
       arraysAsTables maxDepth].
  change (10 <? Z.of_nat 0)%Z with false. cbn iota.
  assert (Harr : (0 <? length (map (fun vals => JObj (combine keys vals)) rows))%nat
                 = true).
  { rewrite length_map. destruct rows; [congruence|reflexivity]. }
  assert (Hobj : isObjectArray (map (fun vals => JObj (combine keys vals)) rows)
                 = true).
  { unfold isObjectArray. rewrite Harr. cbn [andb].
    apply forallb_forall. intros x Hx.
    apply in_map_iff in Hx as (vals & <- & _). reflexivity. }
  rewrite Harr, Hobj. cbn [andb]. unfold arrayToTable.
  rewrite tableKeys_of by assumption.
  destruct (length (map (fun vals => JObj (combine keys vals)) rows) =? 0)%nat
    eqn:E.
  { apply Nat.eqb_eq in E. apply Nat.ltb_lt in Harr. lia. }
  destruct keys as [|k keys']; [congruence|]. cbn [length Nat.eqb].
  cbn [Nat.mul Js.repeatSpace].
  change (fun row : string => EmptyString ++ row) with (fun row : string => row).
  rewrite map_id, escapeMarkdown_cells by assumption.
  f_equal. f_equal. f_equal. rewrite map_map.
  apply map_ext_in. intros vals Hvals. f_equal.
  rewrite Forall_forall in Hlen.
  rewrite <- (map_map
                (fun key => getProp (JObj (combine (k :: keys') vals)) key)
                cellValue).
  now rewrite (getProp_combine (k :: keys') vals Hnodup (Hlen _ Hvals)).
Qed.

Lemma separator_line (keys : list string) :
  keys <> [] -> isSeparatorRow (tableLine (map (fun _ => "---") keys)) = true.
Proof.
  destruct keys as [|k [|k' keys]]; [congruence| |]; intros _; reflexivity.
Qed.

Lemma dashes_clean (keys : list string) :
  Forall (fun cell => isCleanCell cell = true) (map (fun _ => "---") keys).
Proof.
  induction keys as [|k keys IH]; constructor; [reflexivity|assumption].
Qed.

End TableRoundTrip.

Section StableCells.

Lemma integer_cell (z : Z) : (Z.abs z < 10 ^ 21)%Z -> stableCell (num z).
Proof.
  intros Hbound. destruct (integer_text z Hbound) as [Hint Hparse].
  change (cellValue (num z)) with (escapeMarkdown (stringOf (num z))).
  assert (Hpipe : escapeMarkdown (stringOf (num z)) = stringOf (num z)).
  { apply escapeMarkdown_pipe_free.
    apply isInteger_chars; [reflexivity| |assumption].
    intros c Hc. destruct (Ascii.eqb_spec c "|") as [->|_];
      [discriminate Hc|reflexivity]. }
  unfold stableCell.
  change (cellValue (num z)) with (escapeMarkdown (stringOf (num z))).
  rewrite Hpipe. split.
  - unfold isCleanCell.
    rewrite (trim_clean _ (isInteger_clean _ Hint)), String.eqb_refl.
    rewrite (isInteger_chars
               (fun c => negb (Ascii.eqb c "|") && negb (Ascii.eqb c LF))
               (stringOf (num z)) eq_refl); [| |assumption].
    + destruct (stringOf (num z)); [discriminate Hint|reflexivity].
    + intros c Hc.
      destruct (Ascii.eqb_spec c "|") as [->|_]; [discriminate Hc|].
      destruct (Ascii.eqb_spec c LF) as [->|_]; [discriminate Hc|reflexivity].
  - now rewrite parseCellValue_integer, Hparse.
Qed.

Lemma word_cell (s : string) : isWordText s = true -> stableCell (JStr s).
Proof.
  intros H. destruct (word_stable s H) as (_ & Hclean & Hread).
  cbn [scalarText] in *. unfold stableCell.
  change (cellValue (JStr s)) with (escapeMarkdown s).
  split; [|assumption].
  destruct (isCleanText_spec _ Hclean) as (Hne & Htrim & _).
  unfold isWordText in H.
  apply andb_prop in H as [H _]. apply andb_prop in H as [H _].
  apply andb_prop in H as [H _]. apply andb_prop in H as [_ Hletters].
  assert (Hpipe : escapeMarkdown s = s).
  { apply escapeMarkdown_pipe_free.
    apply (allChars_weaken isLetter); [|assumption].
    intros c Hc. destruct (letter_class c Hc) as (_ & _ & _ & _ & _ & _ & ->).
    reflexivity. }
  rewrite Hpipe in *. unfold isCleanCell.
  apply String.eqb_neq in Hne. rewrite Hne, Htrim, String.eqb_refl.
  cbn [negb andb].
  apply (allChars_weaken isLetter); [|assumption].
  intros c Hc. destruct (letter_class c Hc) as (_ & _ & _ & _ & _ & _ & ->).
  destruct (Ascii.eqb_spec c LF) as [->|_]; [discriminate Hc|reflexivity].
Qed.

Lemma decimal_cell (m e : Z) :
  m <> 0%Z -> (m mod 10 <> 0)%Z -> (e < 0)%Z ->
  (-6 < Z.of_nat (String.length (Num.digitsOf m)) + e <= 21)%Z ->
  stableCell (JNum (Finite m e)).
Proof.
  intros Hm Hmod He Hn.
  destruct (decimal_text m e Hm Hmod He Hn) as [Hdec Hparse].
  assert (Hchars : Js.allChars
                     (fun c => negb (Ascii.eqb c "|") && negb (Ascii.eqb c LF))
                     (Num.toString (Finite m e)) = true).
  { apply isDecimal_chars; [reflexivity|reflexivity| |assumption].
    intros c Hc.
    destruct (Ascii.eqb_spec c "|") as [->|_]; [discriminate Hc|].
    destruct (Ascii.eqb_spec c LF) as [->|_]; [discriminate Hc|reflexivity]. }
  assert (Hpipe : escapeMarkdown (Num.toString (Finite m e))
                  = Num.toString (Finite m e)).
  { apply escapeMarkdown_pipe_free.
    apply (allChars_weaken _ _ _ (fun c Hc => proj1 (andb_prop _ _ Hc)) Hchars). }
  unfold stableCell. cbn [cellValue stringOf]. rewrite Hpipe. split.
  - unfold isCleanCell. rewrite Hchars.
    assert (Htrim : Js.trim (Num.toString (Finite m e))
                    = Num.toString (Finite m e)).
    { apply trim_clean.
      apply (isDecimal_chars (fun c => negb (Js.isSpace c)));
        [reflexivity|reflexivity| |assumption].
      intros c Hc. now rewrite (digit_not_space c Hc). }
    rewrite Htrim, String.eqb_refl.
    destruct (Num.toString (Finite m e)); [discriminate Hdec|reflexivity].
  - now rewrite parseCellValue_decimal, Hparse.
Qed.

End StableCells.




